(** * goPAS core: HTTP client, error classification and session state

    A shallow embedding of the two cooperating components of the goPAS
    core, package [client] (client.go, errors.go) and package [session]
    (session.go), together with the properties of their contract.

    Conventions of the embedding:
    - a Go [string] is a [string] (a sequence of bytes), a [[]byte] is a
      [list byte], [string(b)] is [string_of_list_byte b];
    - a Go [int], a [time.Time] and a [time.Duration] are [Z]; status codes
      are only compared, so no wrap-around occurs, and the one subtraction of
      times ([GetElapsedTime]) is taken without the saturation of
      [time.Duration];
    - a pointer is an [option loc] ([None] is nil) into a store of structs;
      a method with a pointer receiver is a computation over the store that
      aborts ([None]) where Go panics on a nil dereference;
    - a Go result pair [(v, err)] is a pair of options;
    - each Session method holds the session's lock for its whole body, so
      in this sequential model a method body is one atomic state change and
      the lock itself is not represented;
    - the Go standard library (encoding/json, net/http, net/textproto,
      net/url, io) lies
      outside the repository: it is an interface, [GoRuntime], over which
      every function below is parametric. *)

From Stdlib Require Import ZArith Strings.Byte Strings.Ascii.
From stdpp Require Import gmap strings pretty list.

Local Open Scope Z_scope.

(** ** Go basics *)

Definition loc := positive.
Definition Duration := Z.
Definition time_Time := Z.
Definition time_Second : Duration := 1000000000.

(** [len(s) >= len(suffix) && s[len(s)-len(suffix):] == suffix] *)
Definition strings_HasSuffix (s suffix : string) : bool :=
  (String.length suffix <=? String.length s)%nat &&
  String.eqb
    (String.substring (String.length s - String.length suffix)
               (String.length suffix) s)
    suffix.

(** [if HasSuffix(s, suffix) { return s[:len(s)-len(suffix)] }; return s] *)
Definition strings_TrimSuffix (s suffix : string) : string :=
  if strings_HasSuffix s suffix
  then String.substring 0 (String.length s - String.length suffix) s
  else s.

(** ** errors.go: the typed API error *)

Module APIError.
Record t := mk {
  StatusCode : Z;        (* json:"-" *)
  ErrorCode : string;    (* json:"ErrorCode" *)
  ErrorMsg : string;     (* json:"ErrorMessage" *)
  Details : string       (* json:"Details,omitempty" *)
}.
End APIError.

(** The values of Go's [error] interface that this program builds or
    receives: an opaque message ([fmt.Errorf] without [%w], and the errors
    of the standard library), a wrapped error ([fmt.Errorf("...: %w", err)])
    and a [*APIError]. *)
Inductive error :=
| errorString (msg : string)
| wrapError (msg : string) (err : error)
| apiError (e : APIError.t).

(** [fmt.Sprintf("CyberArk API error [%d] ...")] *)
Definition APIError_Error (e : APIError.t) : string :=
  if negb (String.eqb (APIError.ErrorCode e) "")
  then "CyberArk API error [" +:+ pretty (APIError.StatusCode e) +:+ "] "
       +:+ APIError.ErrorCode e +:+ ": " +:+ APIError.ErrorMsg e
  else "CyberArk API error [" +:+ pretty (APIError.StatusCode e) +:+ "]: "
       +:+ APIError.ErrorMsg e.

Definition APIError_IsNotFound (e : APIError.t) : bool := (APIError.StatusCode e =? 404)%Z.
Definition APIError_IsUnauthorized (e : APIError.t) : bool := (APIError.StatusCode e =? 401)%Z.
Definition APIError_IsForbidden (e : APIError.t) : bool := (APIError.StatusCode e =? 403)%Z.
Definition APIError_IsConflict (e : APIError.t) : bool := (APIError.StatusCode e =? 409)%Z.
Definition APIError_IsBadRequest (e : APIError.t) : bool := (APIError.StatusCode e =? 400)%Z.

Definition IsAPIError (err : option error) : bool :=
  match err with
  | Some (apiError _) => true
  | _ => false
  end.

Definition AsAPIError (err : option error) : option APIError.t * bool :=
  match err with
  | Some (apiError e) => (Some e, true)
  | _ => (None, false)
  end.

(** ** The standard library, as far as the client uses it *)

(** [http.Header]: canonical key to list of values. *)
Abbreviation http_Header := (gmap string (list string)).
(** [url.Values] *)
Abbreviation url_Values := (gmap string (list string)).

Module http_Client.
Record t {RoundTripper : Type} := mk {
  Timeout : Duration;
  Transport : option RoundTripper   (* nil: the default transport *)
}.
Arguments t : clear implicits.
Arguments mk {RoundTripper}.
End http_Client.

Module http_Request.
Record t {Ctx : Type} := mk {
  ctx : Ctx;
  Method : string;
  URL : string;
  Header : http_Header;
  Body : option (list byte)
}.
Arguments t : clear implicits.
Arguments mk {Ctx}.
End http_Request.

Module http_Response.
Record t {ReadCloser : Type} := mk {
  StatusCode : Z;
  Header : http_Header;
  Body : ReadCloser
}.
Arguments t : clear implicits.
Arguments mk {ReadCloser}.
End http_Response.

Class GoRuntime := {
  (** dynamic values stored in an [interface{}] *)
  any : Type;
  context_Context : Type;
  http_RoundTripper : Type;
  io_ReadCloser : Type;
  (** [json.Marshal(v)] *)
  json_Marshal : any -> list byte + error;
  (** [json.Unmarshal(data, apiErr)] for [apiErr *APIError]: the struct as
      the decoder leaves it (it may be partly filled even on failure) and
      the decoder's error. *)
  json_Unmarshal : list byte -> APIError.t -> APIError.t * option error;
  (** [StatusCode] is tagged [json:"-"]: the decoder never writes it. *)
  json_Unmarshal_StatusCode : forall data e,
    APIError.StatusCode (json_Unmarshal data e).1 = APIError.StatusCode e;
  (** [url.Values.Encode()] *)
  url_Values_Encode : url_Values -> string;
  (** the checks of [http.NewRequestWithContext(ctx, method, url, body)]:
      the error it returns, if any *)
  http_NewRequest_check : context_Context -> string -> string -> option error;
  (** [textproto.CanonicalMIMEHeaderKey], applied by [Header.Set]/[Get] *)
  textproto_CanonicalMIMEHeaderKey : string -> string;
  (** the two header names the client sets by default are different
      canonical keys *)
  textproto_default_keys_differ :
    textproto_CanonicalMIMEHeaderKey "Content-Type" <>
    textproto_CanonicalMIMEHeaderKey "Authorization";
  (** the [Do] method of [http.Client] *)
  http_Client_Do :
    http_Client.t http_RoundTripper -> http_Request.t context_Context ->
    http_Response.t io_ReadCloser + error;
  (** [io.ReadAll(r)] *)
  io_ReadAll : io_ReadCloser -> list byte + error
}.

Section Http.
Context `{GoRuntime}.

(** [h.Set(key, value)]: [h[CanonicalMIMEHeaderKey(key)] = []string{value}] *)
Definition http_Header_Set (h : http_Header) (key value : string) : http_Header :=
  <[textproto_CanonicalMIMEHeaderKey key := [value]]> h.

(** [h.Get(key)]: the first value under the canonical key, [""] if none;
    [http_Header_Values] is the list under it ([None] when absent). *)
Definition http_Header_Values (h : http_Header) (key : string) : option (list string) :=
  h !! textproto_CanonicalMIMEHeaderKey key.

Definition http_Header_Get (h : http_Header) (key : string) : string :=
  match http_Header_Values h key with
  | Some (v :: _) => v
  | _ => ""
  end.

(** [http.NewRequestWithContext]: on success a request with an empty
    header map. *)
Definition http_NewRequestWithContext (ctx : context_Context)
    (method url : string) (body : option (list byte))
  : http_Request.t context_Context + error :=
  match http_NewRequest_check ctx method url with
  | Some err => inr err
  | None => inl (http_Request.mk ctx method url ∅ body)
  end.
End Http.

(** ** The store monad *)

(** A computation over a store [St] that returns an [A] or panics. *)
Definition M (St A : Type) : Type := St -> option (A * St).

Definition ret {St A} (a : A) : M St A := fun st => Some (a, st).
Definition bind {St A B} (m : M St A) (k : A -> M St B) : M St B :=
  fun st => match m st with
            | Some (a, st') => k a st'
            | None => None
            end.
Definition panic {St A} : M St A := fun _ => None.

Declare Scope go_scope.
Delimit Scope go_scope with go.
Notation "'let*' x ':=' m 'in' k" := (bind m (fun x => k))
  (at level 10, x name, m at level 100, k at level 200, only parsing) : go_scope.
Notation "m ';;;' k" := (bind m (fun _ => k))
  (at level 100, k at level 200, right associativity, only parsing) : go_scope.
Local Open Scope go_scope.

(** ** client.go *)

Module Client.
Record t {RT : Type} := mk {
  httpClient : option (http_Client.t RT);
  baseURL : string;
  apiURL : string;
  authToken : string;
  contentType : string;
  timeout : Duration
}.
Arguments t : clear implicits.
Arguments mk {RT}.
End Client.

Module Config.
Record t {RT : Type} := mk {
  BaseURL : string;
  Timeout : Duration;
  SkipTLSVerify : bool;
  CustomHTTPClient : option (http_Client.t RT)
}.
Arguments t : clear implicits.
Arguments mk {RT}.
End Config.

Module Request.
Record t {Any : Type} := mk {
  Method : string;
  Path : string;
  Body : option Any;                 (* interface{}; nil is None *)
  QueryParams : url_Values;
  Headers : list (string * string)   (* map[string]string, in the order
                                        the range loop visits it *)
}.
Arguments t : clear implicits.
Arguments mk {Any}.
End Request.

Module Response.
Record t := mk {
  StatusCode : Z;
  Body : list byte;
  Headers : http_Header
}.
End Response.

Abbreviation ClientT := (Client.t http_RoundTripper).
Abbreviation ConfigT := (Config.t http_RoundTripper).
Abbreviation RequestT := (Request.t any).
Abbreviation Clients := (gmap loc (Client.t http_RoundTripper)).

(** Allocation of a struct ([&T{...}]) and access through a pointer. *)
Definition alloc {A} (a : A) : M (gmap loc A) loc :=
  fun st => let l := fresh (dom st) in Some (l, <[l := a]> st).

Definition load {A} (p : option loc) : M (gmap loc A) A :=
  fun st => match p with
            | Some l => match st !! l with
                        | Some a => Some (a, st)
                        | None => None
                        end
            | None => None
            end.

Definition store {A} (p : option loc) (a : A) : M (gmap loc A) unit :=
  fun st => match p with
            | Some l => match st !! l with
                        | Some _ => Some (tt, <[l := a]> st)
                        | None => None
                        end
            | None => None
            end.

Section ClientPkg.
Context `{GoRuntime}.


(** NewClient creates a new HTTP client for CyberArk API communication. *)
Definition NewClient (cfg : ConfigT) : M Clients (option loc * option error) :=
  if String.eqb (Config.BaseURL cfg) "" then
    ret (None, Some (errorString "baseURL is required"))
  else
    let BaseURL := strings_TrimSuffix (Config.BaseURL cfg) "/" in
    let timeout := Config.Timeout cfg in
    let timeout := if (timeout =? 0)%Z then (30 * time_Second)%Z else timeout in
    let httpClient := Config.CustomHTTPClient cfg in
    let httpClient :=
      match httpClient with
      | None => Some (http_Client.mk timeout None)
      | Some _ => httpClient
      end in
    let* c := alloc (Client.mk httpClient
                               BaseURL
                               (BaseURL +:+ "/PasswordVault/API")
                               ""
                               "application/json"
                               timeout) in
    ret (Some c, None).

Definition set_authToken (c : ClientT) (token : string) : ClientT :=
  Client.mk (Client.httpClient c) (Client.baseURL c) (Client.apiURL c)
            token (Client.contentType c) (Client.timeout c).

(** [c.authToken = token] *)
Definition Client_SetAuthToken (c : option loc) (token : string) : M Clients unit :=
  let* v := load c in
  store c (set_authToken v token).

Definition Client_GetAuthToken (c : option loc) : M Clients string :=
  let* v := load c in ret (Client.authToken v).

Definition Client_GetBaseURL (c : option loc) : M Clients string :=
  let* v := load c in ret (Client.baseURL v).

Definition Client_GetAPIURL (c : option loc) : M Clients string :=
  let* v := load c in ret (Client.apiURL v).

Definition set_ErrorMsg (e : APIError.t) (msg : string) : APIError.t :=
  APIError.mk (APIError.StatusCode e) (APIError.ErrorCode e) msg (APIError.Details e).

(** parseAPIError parses the API error response (errors.go). *)
Definition parseAPIError (resp : Response.t) : error :=
  let apiErr := APIError.mk (Response.StatusCode resp) "" "" "" in
  (* Try to parse the error response body *)
  let apiErr :=
    if (0 <? length (Response.Body resp))%nat then
      match json_Unmarshal (Response.Body resp) apiErr with
      | (apiErr, Some _) =>
          (* If parsing fails, use the raw body as the error message *)
          set_ErrorMsg apiErr (String.string_of_list_byte (Response.Body resp))
      | (apiErr, None) => apiErr
      end
    else apiErr in
  (* Set default message if empty *)
  let apiErr :=
    if String.eqb (APIError.ErrorMsg apiErr) "" then
      set_ErrorMsg apiErr
        match Response.StatusCode resp with
        | 400 => "Bad Request"
        | 401 => "Unauthorized"
        | 403 => "Forbidden"
        | 404 => "Not Found"
        | 409 => "Conflict"
        | 500 => "Internal Server Error"
        | _ => "HTTP Error " +:+ pretty (Response.StatusCode resp)
        end%Z
    else apiErr in
  apiError apiErr.

Definition set_Header (r : http_Request.t context_Context) (h : http_Header)
  : http_Request.t context_Context :=
  http_Request.mk (http_Request.ctx r) (http_Request.Method r)
                  (http_Request.URL r) h (http_Request.Body r).

(** The first half of [Do] (client.go, up to the transport call): the
    outbound [*http.Request] that is handed to the transport, or the
    error [Do] returns before reaching it. *)
Definition Client_Do_request (c : ClientT) (ctx : context_Context) (req : RequestT)
  : http_Request.t context_Context + error :=
  (* Build the full URL *)
  let fullURL := Client.apiURL c +:+ Request.Path req in
  let fullURL :=
    if (0 <? size (Request.QueryParams req))%nat
    then fullURL +:+ "?" +:+ url_Values_Encode (Request.QueryParams req)
    else fullURL in
  (* Serialize body if present *)
  let bodyReader : option (list byte) + error :=
    match Request.Body req with
    | Some body =>
        match json_Marshal body with
        | inl bodyBytes => inl (Some bodyBytes)
        | inr err => inr (wrapError "failed to marshal request body: " err)
        end
    | None => inl None
    end in
  match bodyReader with
  | inr err => inr err
  | inl bodyReader =>
      (* Create the HTTP request *)
      match http_NewRequestWithContext ctx (Request.Method req) fullURL bodyReader with
      | inr err => inr (wrapError "failed to create request: " err)
      | inl httpReq =>
          (* Set default headers *)
          let h := http_Header_Set (http_Request.Header httpReq)
                                   "Content-Type" (Client.contentType c) in
          let h := if negb (String.eqb (Client.authToken c) "")
                   then http_Header_Set h "Authorization" (Client.authToken c)
                   else h in
          (* Set custom headers *)
          let h := foldl (fun h kv => http_Header_Set h kv.1 kv.2) h
                         (Request.Headers req) in
          inl (set_Header httpReq h)
      end
  end.

(** The second half of [Do]: what it returns once the transport has been
    called with [httpReq]. *)
Definition Client_Do_response (hc : http_Client.t http_RoundTripper)
    (httpReq : http_Request.t context_Context)
  : option Response.t * option error :=
  (* Execute the request *)
  match http_Client_Do hc httpReq with
  | inr err => (None, Some (wrapError "failed to execute request: " err))
  | inl httpResp =>
      (* Read the response body *)
      match io_ReadAll (http_Response.Body httpResp) with
      | inr err => (None, Some (wrapError "failed to read response body: " err))
      | inl respBody =>
          let resp := Response.mk (http_Response.StatusCode httpResp)
                                  respBody
                                  (http_Response.Header httpResp) in
          (* Check for error responses *)
          if (400 <=? http_Response.StatusCode httpResp)%Z
          then (Some resp, Some (parseAPIError resp))
          else (Some resp, None)
      end
  end.

(** Do executes an HTTP request to the CyberArk API. *)
Definition Client_Do (c : option loc) (ctx : context_Context) (req : RequestT)
  : M Clients (option Response.t * option error) :=
  let* v := load c in
  match Client_Do_request v ctx req with
  | inr err => ret (None, Some err)
  | inl httpReq =>
      match Client.httpClient v with
      | None => panic
      | Some hc => ret (Client_Do_response hc httpReq)
      end
  end.

Definition Client_Get c ctx (path : string) (queryParams : url_Values) :=
  Client_Do c ctx (Request.mk "GET" path None queryParams []).
Definition Client_Post c ctx (path : string) (body : option any) :=
  Client_Do c ctx (Request.mk "POST" path body ∅ []).
Definition Client_Put c ctx (path : string) (body : option any) :=
  Client_Do c ctx (Request.mk "PUT" path body ∅ []).
Definition Client_Patch c ctx (path : string) (body : option any) :=
  Client_Do c ctx (Request.mk "PATCH" path body ∅ []).
Definition Client_Delete c ctx (path : string) :=
  Client_Do c ctx (Request.mk "DELETE" path None ∅ []).
End ClientPkg.

(** ** session.go *)

Module Session.
Record t := mk {
  Client : option loc;          (* *client.Client *)
  BaseURI : string;
  APIURI : string;
  User : string;
  ExternalVersion : string;
  StartTime : time_Time;
  LastCommand : string;
  LastCommandTime : time_Time;
  LastError : option error;
  LastErrorTime : time_Time;
  IsAuthenticated : bool;
  AuthMethod : string;
  SessionToken : string;
  PrivilegeCloud : bool
}.
End Session.

Module Heap.
Record t {C : Type} := mk {
  clients : gmap loc C;
  sessions : gmap loc Session.t
}.
Arguments t : clear implicits.
Arguments mk {C}.
End Heap.

Abbreviation HeapT := (Heap.t (Client.t http_RoundTripper)).

(** Running a computation on one of the two stores of the heap. *)
Definition on_clients {C A} (m : M (gmap loc C) A) : M (Heap.t C) A :=
  fun h => match m (Heap.clients h) with
           | Some (a, cs) => Some (a, Heap.mk cs (Heap.sessions h))
           | None => None
           end.

Definition on_sessions {C A} (m : M (gmap loc Session.t) A) : M (Heap.t C) A :=
  fun h => match m (Heap.sessions h) with
           | Some (a, ss) => Some (a, Heap.mk (Heap.clients h) ss)
           | None => None
           end.

Section SessionPkg.
Context `{GoRuntime}.


(** NewSession creates a new unauthenticated session; [now] is what
    [time.Now()] returns. *)
Definition NewSession (baseURI : string) (now : time_Time)
  : M HeapT (option loc * option error) :=
  let cfg := Config.mk baseURI 0 false None in
  let* r := on_clients (NewClient cfg) in
  match r with
  | (_, Some err) => ret (None, Some err)
  | (c, None) =>
      let* apiURL := on_clients (Client_GetAPIURL c) in
      let* s := on_sessions (alloc (Session.mk
                  c baseURI apiURL "" "" now "" 0 None 0 false "" "" false)) in
      ret (Some s, None)
  end.

(** SetAuthenticated marks the session as authenticated. *)
Definition Session_SetAuthenticated (s : option loc) (user token authMethod : string)
  : M HeapT unit :=
  let* v := on_sessions (load s) in
  on_sessions (store s (Session.mk
    (Session.Client v) (Session.BaseURI v) (Session.APIURI v)
    user
    (Session.ExternalVersion v) (Session.StartTime v) (Session.LastCommand v)
    (Session.LastCommandTime v) (Session.LastError v) (Session.LastErrorTime v)
    true authMethod token
    (Session.PrivilegeCloud v))) ;;;
  on_clients (Client_SetAuthToken (Session.Client v) token).

Definition Session_SetVersion (s : option loc) (version : string) : M HeapT unit :=
  let* v := on_sessions (load s) in
  on_sessions (store s (Session.mk
    (Session.Client v) (Session.BaseURI v) (Session.APIURI v) (Session.User v)
    version
    (Session.StartTime v) (Session.LastCommand v) (Session.LastCommandTime v)
    (Session.LastError v) (Session.LastErrorTime v) (Session.IsAuthenticated v)
    (Session.AuthMethod v) (Session.SessionToken v) (Session.PrivilegeCloud v))).

Definition Session_SetPrivilegeCloud (s : option loc) (isCloud : bool) : M HeapT unit :=
  let* v := on_sessions (load s) in
  on_sessions (store s (Session.mk
    (Session.Client v) (Session.BaseURI v) (Session.APIURI v) (Session.User v)
    (Session.ExternalVersion v) (Session.StartTime v) (Session.LastCommand v)
    (Session.LastCommandTime v) (Session.LastError v) (Session.LastErrorTime v)
    (Session.IsAuthenticated v) (Session.AuthMethod v) (Session.SessionToken v)
    isCloud)).

Definition Session_UpdateLastCommand (s : option loc) (cmd : string) (now : time_Time)
  : M HeapT unit :=
  let* v := on_sessions (load s) in
  on_sessions (store s (Session.mk
    (Session.Client v) (Session.BaseURI v) (Session.APIURI v) (Session.User v)
    (Session.ExternalVersion v) (Session.StartTime v)
    cmd now
    (Session.LastError v) (Session.LastErrorTime v) (Session.IsAuthenticated v)
    (Session.AuthMethod v) (Session.SessionToken v) (Session.PrivilegeCloud v))).

Definition Session_UpdateLastError (s : option loc) (err : option error) (now : time_Time)
  : M HeapT unit :=
  let* v := on_sessions (load s) in
  on_sessions (store s (Session.mk
    (Session.Client v) (Session.BaseURI v) (Session.APIURI v) (Session.User v)
    (Session.ExternalVersion v) (Session.StartTime v) (Session.LastCommand v)
    (Session.LastCommandTime v)
    err now
    (Session.IsAuthenticated v) (Session.AuthMethod v) (Session.SessionToken v)
    (Session.PrivilegeCloud v))).

(** [time.Since(s.StartTime)] (the saturation of [time.Duration] at its
    bounds is not represented). *)
Definition Session_GetElapsedTime (s : option loc) (now : time_Time) : M HeapT Duration :=
  let* v := on_sessions (load s) in
  ret (now - Session.StartTime v)%Z.

(** Close closes the session (does not log out from CyberArk). *)
Definition Session_Close (s : option loc) : M HeapT unit :=
  let* v := on_sessions (load s) in
  on_sessions (store s (Session.mk
    (Session.Client v) (Session.BaseURI v) (Session.APIURI v) (Session.User v)
    (Session.ExternalVersion v) (Session.StartTime v) (Session.LastCommand v)
    (Session.LastCommandTime v) (Session.LastError v) (Session.LastErrorTime v)
    false
    (Session.AuthMethod v)
    ""
    (Session.PrivilegeCloud v))).

(** Clone creates a copy of the session: the fields named in the struct
    literal are copied, the others are zero. *)
Definition Session_Clone (s : option loc) : M HeapT (option loc) :=
  let* v := on_sessions (load s) in
  let* p := on_sessions (alloc (Session.mk
    (Session.Client v) (Session.BaseURI v) (Session.APIURI v) (Session.User v)
    (Session.ExternalVersion v) (Session.StartTime v)
    "" 0 None 0
    (Session.IsAuthenticated v) (Session.AuthMethod v) (Session.SessionToken v)
    (Session.PrivilegeCloud v))) in
  ret (Some p).

(** IsValid returns true if the session is valid and authenticated. *)
Definition Session_IsValid (s : option loc) : M HeapT bool :=
  let* v := on_sessions (load s) in
  ret (Session.IsAuthenticated v && negb (String.eqb (Session.SessionToken v) "")).

(** *** Sequences of method calls on one session *)

Inductive SessionOp :=
| SetAuthenticated (user token authMethod : string)
| SetVersion (version : string)
| SetPrivilegeCloud (isCloud : bool)
| UpdateLastCommand (cmd : string) (now : time_Time)
| UpdateLastError (err : option error) (now : time_Time)
| GetElapsedTime (now : time_Time)
| Close
| Clone
| IsValid.

Definition call (s : option loc) (op : SessionOp) : M HeapT unit :=
  match op with
  | SetAuthenticated user token authMethod =>
      Session_SetAuthenticated s user token authMethod
  | SetVersion version => Session_SetVersion s version
  | SetPrivilegeCloud isCloud => Session_SetPrivilegeCloud s isCloud
  | UpdateLastCommand cmd now => Session_UpdateLastCommand s cmd now
  | UpdateLastError err now => Session_UpdateLastError s err now
  | GetElapsedTime now => Session_GetElapsedTime s now ;;; ret tt
  | Close => Session_Close s
  | Clone => Session_Clone s ;;; ret tt
  | IsValid => Session_IsValid s ;;; ret tt
  end.

Fixpoint calls (s : option loc) (ops : list SessionOp) : M HeapT unit :=
  match ops with
  | [] => ret tt
  | op :: ops => call s op ;;; calls s ops
  end.
End SessionPkg.

(** ** authentication.go *)

Definition AuthMethodCyberArk : string := "CyberArk".
Definition AuthMethodLDAP : string := "LDAP".
Definition AuthMethodRADIUS : string := "RADIUS".
Definition AuthMethodWindows : string := "Windows".

Module Credentials.
Record t := mk {
  Username : string;
  Password : string
}.
End Credentials.

Module SessionOptions.
Record t {RT : Type} := mk {
  BaseURL : string;
  Credentials : Credentials.t;
  AuthMethod : string;
  ConcurrentSession : bool;
  SkipVersionCheck : bool;
  CustomHTTPClient : option (http_Client.t RT)
}.
Arguments t : clear implicits.
Arguments mk {RT}.
End SessionOptions.

Module LoginRequest.
Record t := mk {
  Username : string;          (* json:"username" *)
  Password : string;          (* json:"password" *)
  ConcurrentSession : bool    (* json:"concurrentSession,omitempty" *)
}.
End LoginRequest.

Module LoginResponse.
Record t := mk {
  Token : string              (* json:"CyberArkLogonResult,omitempty" *)
}.
End LoginResponse.

Module ServerInfo.
Record t {F : Type} := mk {
  ServerID : string;
  ServerName : string;
  ServicesUsed : string;
  ApplicationsUsed : string;
  InternalVersion : F;        (* float64 *)
  ExternalVersion : string
}.
Arguments t : clear implicits.
Arguments mk {F}.
End ServerInfo.

(** What the authentication package needs of the standard library beyond
    [GoRuntime]: the values it boxes into [interface{}] and the decoders of
    its response structs. *)
Class AuthRuntime `{GoRuntime} := {
  float64 : Type;
  float64_zero : float64;
  (** a [LoginRequest] passed as [interface{}] *)
  LoginRequest_any : LoginRequest.t -> any;
  (** [json.Unmarshal(data, &loginResp)] *)
  json_Unmarshal_LoginResponse :
    list byte -> LoginResponse.t -> LoginResponse.t * option error;
  (** [json.Unmarshal(data, &info)] *)
  json_Unmarshal_ServerInfo :
    list byte -> ServerInfo.t float64 -> ServerInfo.t float64 * option error
}.

Definition double_quote : ascii := "034"%char.

(** trimQuotes removes surrounding quotes from a string. *)
Definition trimQuotes (s : string) : string :=
  if (2 <=? String.length s)%nat
     && bool_decide (String.get 0 s = Some double_quote)
     && bool_decide (String.get (String.length s - 1) s = Some double_quote)
  then String.substring 1 (String.length s - 2) s
  else s.

(** getAuthPath returns the authentication endpoint path based on the
    method. *)
Definition getAuthPath (method : string) : string :=
  if String.eqb method AuthMethodLDAP then "/Auth/LDAP/Logon"
  else if String.eqb method AuthMethodRADIUS then "/Auth/RADIUS/Logon"
  else if String.eqb method AuthMethodWindows then "/Auth/Windows/Logon"
  else "/Auth/CyberArk/Logon".

Section AuthenticationPkg.
Context `{AuthRuntime}.

(** GetServerInfo retrieves the CyberArk server information. *)
Definition GetServerInfo (ctx : context_Context) (sess : option loc)
  : M HeapT (option (ServerInfo.t float64) * option error) :=
  match sess with
  | None => ret (None, Some (errorString "session is required"))
  | Some _ =>
      let* v := on_sessions (load sess) in
      let* r := on_clients (Client_Get (Session.Client v) ctx
                              "/WebServices/PIMServices.svc/Server" ∅) in
      match r with
      | (_, Some err) => ret (None, Some (wrapError "failed to get server info: " err))
      | (None, None) => panic
      | (Some resp, None) =>
          let info := ServerInfo.mk "" "" "" "" float64_zero "" in
          match json_Unmarshal_ServerInfo (Response.Body resp) info with
          | (_, Some err) =>
              ret (None, Some (wrapError "failed to parse server info: " err))
          | (info, None) => ret (Some info, None)
          end
      end
  end.

(** fetchServerVersion fetches and stores the server version. *)
Definition fetchServerVersion (ctx : context_Context) (sess : option loc)
  : M HeapT (option error) :=
  let* r := GetServerInfo ctx sess in
  match r with
  | (_, Some err) => ret (Some err)
  | (None, None) => panic
  | (Some info, None) =>
      Session_SetVersion sess (ServerInfo.ExternalVersion info) ;;;
      ret None
  end.

(** NewSession creates a new authenticated session with CyberArk; [now] is
    what [time.Now()] returns in [session.NewSession]. *)
Definition authentication_NewSession (ctx : context_Context)
    (opts : SessionOptions.t http_RoundTripper) (now : time_Time)
  : M HeapT (option loc * option error) :=
  if String.eqb (SessionOptions.BaseURL opts) "" then
    ret (None, Some (errorString "baseURL is required"))
  else if String.eqb (Credentials.Username (SessionOptions.Credentials opts)) "" then
    ret (None, Some (errorString "username is required"))
  else if String.eqb (Credentials.Password (SessionOptions.Credentials opts)) "" then
    ret (None, Some (errorString "password is required"))
  else
    (* Set default auth method *)
    let AuthMethod :=
      if String.eqb (SessionOptions.AuthMethod opts) "" then AuthMethodCyberArk
      else SessionOptions.AuthMethod opts in
    (* Create a new session *)
    let* r := NewSession (SessionOptions.BaseURL opts) now in
    match r with
    | (_, Some err) => ret (None, Some (wrapError "failed to create session: " err))
    | (sess, None) =>
        let authPath := getAuthPath AuthMethod in
        let loginReq :=
          LoginRequest.mk (Credentials.Username (SessionOptions.Credentials opts))
                          (Credentials.Password (SessionOptions.Credentials opts))
                          (SessionOptions.ConcurrentSession opts) in
        (* Perform authentication *)
        let* v := on_sessions (load sess) in
        let* r := on_clients (Client_Post (Session.Client v) ctx authPath
                                (Some (LoginRequest_any loginReq))) in
        match r with
        | (_, Some err) => ret (None, Some (wrapError "authentication failed: " err))
        | (None, None) => panic
        | (Some resp, None) =>
            (* Parse the response *)
            let loginResp :=
              match json_Unmarshal_LoginResponse (Response.Body resp)
                                                 (LoginResponse.mk "") with
              | (_, Some _) =>
                  (* Try to parse as plain string *)
                  LoginResponse.mk
                    (trimQuotes (String.string_of_list_byte (Response.Body resp)))
              | (loginResp, None) => loginResp
              end in
            if String.eqb (LoginResponse.Token loginResp) "" then
              ret (None, Some (errorString "no authentication token received"))
            else
              (* Set the session as authenticated *)
              Session_SetAuthenticated sess
                (Credentials.Username (SessionOptions.Credentials opts))
                (LoginResponse.Token loginResp) AuthMethod ;;;
              (* Get server version unless skipped *)
              (if negb (SessionOptions.SkipVersionCheck opts)
               then fetchServerVersion ctx sess ;;; ret tt
               else ret tt) ;;;
              ret (sess, None)
        end
    end.

(** CloseSession closes the authenticated session. *)
Definition authentication_CloseSession (ctx : context_Context) (sess : option loc)
  : M HeapT (option error) :=
  match sess with
  | None => ret None
  | Some _ =>
      let* valid := Session_IsValid sess in
      if negb valid then ret None
      else
        (* Call logoff endpoint *)
        let* v := on_sessions (load sess) in
        let* r := on_clients (Client_Post (Session.Client v) ctx "/Auth/Logoff" None) in
        match r.2 with
        | Some err =>
            (* Check if it's a 401 (already logged out) *)
            let (apiErr, ok) := AsAPIError (Some err) in
            if ok && from_option APIError_IsUnauthorized false apiErr then
              Session_Close sess ;;; ret None
            else ret (Some (wrapError "failed to close session: " err))
        | None =>
            Session_Close sess ;;; ret None
        end
  end.
End AuthenticationPkg.

(** ** accounts.go *)

Section AccountsPkg.
Context `{GoRuntime}.

(** Delete removes an account from CyberArk. *)
Definition accounts_Delete (ctx : context_Context) (sess : option loc)
    (accountID : string) : M HeapT (option error) :=
  let* invalid :=
    match sess with
    | None => ret true
    | Some _ => let* valid := Session_IsValid sess in ret (negb valid)
    end in
  if invalid : bool then ret (Some (errorString "valid session is required"))
  else if String.eqb accountID "" then ret (Some (errorString "accountID is required"))
  else
    let* v := on_sessions (load sess) in
    let* r := on_clients (Client_Delete (Session.Client v) ctx
                            ("/Accounts/" +:+ accountID)) in
    match r.2 with
    | Some err => ret (Some (wrapError "failed to delete account: " err))
    | None => ret None
    end.
End AccountsPkg.

(** ** helpers: version.go and helpers.go

    Pure functions; [int] is taken to be 64 bits wide, as [strconv.Atoi]
    sees it on the platforms the module is built for. *)

(** [strings.TrimPrefix] *)
Definition strings_TrimPrefix (s prefix : string) : string :=
  if String.prefix prefix s
  then String.substring (String.length prefix)
                        (String.length s - String.length prefix) s
  else s.

(** [strings.Split(s, sep)] for a separator of one byte: the pieces between
    the occurrences of [sep], at least one piece. *)
Fixpoint strings_Split (s : string) (sep : ascii) : list string :=
  match s with
  | EmptyString => [EmptyString]
  | String c r =>
      if Ascii.eqb c sep then EmptyString :: strings_Split r sep
      else match strings_Split r sep with
           | p :: ps => String c p :: ps
           | [] => [String c EmptyString]
           end
  end.

Definition digit_value (c : ascii) : option N :=
  let n := N_of_ascii c in
  if ((48 <=? n) && (n <=? 57))%N then Some (n - 48)%N else None.

Fixpoint parse_digits (acc : N) (s : string) : option N :=
  match s with
  | EmptyString => Some acc
  | String c r =>
      match digit_value c with
      | Some d => parse_digits (acc * 10 + d) r
      | None => None
      end
  end.

(** [strconv.Atoi]: an optional sign and at least one decimal digit, the
    value within the 64-bit [int]; [None] is its error. *)
Definition strconv_Atoi (s : string) : option Z :=
  let (neg, digits) :=
    match s with
    | String c r =>
        if Ascii.eqb c "-" then (true, r)
        else if Ascii.eqb c "+" then (false, r)
        else (false, s)
    | EmptyString => (false, s)
    end%char in
  match digits with
  | EmptyString => None
  | _ =>
      match parse_digits 0 digits with
      | None => None
      | Some n =>
          if neg
          then if (n <=? 2 ^ 63)%N then Some (- Z.of_N n)%Z else None
          else if (n <? 2 ^ 63)%N then Some (Z.of_N n) else None
      end
  end.

Module Version.
Record t := mk {
  Major : Z;
  Minor : Z;
  Patch : Z
}.
End Version.

(** ParseVersion parses a version string into a Version struct. *)
Definition ParseVersion (v : string) : option Version.t * option error :=
  (* Remove leading 'v' if present *)
  let v := strings_TrimPrefix v "v" in
  let v := strings_TrimPrefix v "V" in
  let parts := strings_Split v "."%char in
  if (length parts =? 0)%nat then
    (None, Some (errorString ("invalid version format: " +:+ v)))
  else
    let version := Version.mk 0 0 0 in
    let major : Version.t + error :=
      if (1 <=? length parts)%nat then
        match strconv_Atoi (nth 0 parts "") with
        | Some major =>
            inl (Version.mk major (Version.Minor version) (Version.Patch version))
        | None => inr (errorString ("invalid major version: " +:+ nth 0 parts ""))
        end
      else inl version in
    match major with
    | inr err => (None, Some err)
    | inl version =>
        let minor : Version.t + error :=
          if (2 <=? length parts)%nat then
            match strconv_Atoi (nth 1 parts "") with
            | Some minor =>
                inl (Version.mk (Version.Major version) minor (Version.Patch version))
            | None => inr (errorString ("invalid minor version: " +:+ nth 1 parts ""))
            end
          else inl version in
        match minor with
        | inr err => (None, Some err)
        | inl version =>
            let patch : Version.t + error :=
              if (3 <=? length parts)%nat then
                match strconv_Atoi (nth 2 parts "") with
                | Some patch =>
                    inl (Version.mk (Version.Major version) (Version.Minor version)
                                    patch)
                | None =>
                    inr (errorString ("invalid patch version: " +:+ nth 2 parts ""))
                end
              else inl version in
            match patch with
            | inr err => (None, Some err)
            | inl version => (Some version, None)
            end
        end
    end.

(** [fmt.Sprintf("%d.%d.%d", v.Major, v.Minor, v.Patch)] *)
Definition Version_String (v : Version.t) : string :=
  pretty (Version.Major v) +:+ "." +:+ pretty (Version.Minor v) +:+ "."
  +:+ pretty (Version.Patch v).

(** Compare compares two versions.
    Returns -1 if v < other, 0 if v == other, 1 if v > other. *)
Definition Version_Compare (v other : Version.t) : Z :=
  if negb (Version.Major v =? Version.Major other)%Z then
    if (Version.Major v <? Version.Major other)%Z then -1 else 1
  else if negb (Version.Minor v =? Version.Minor other)%Z then
    if (Version.Minor v <? Version.Minor other)%Z then -1 else 1
  else if negb (Version.Patch v =? Version.Patch other)%Z then
    if (Version.Patch v <? Version.Patch other)%Z then -1 else 1
  else 0.

Definition Version_GreaterThanOrEqual (v other : Version.t) : bool :=
  (0 <=? Version_Compare v other)%Z.

Definition Version_LessThan (v other : Version.t) : bool :=
  (Version_Compare v other <? 0)%Z.

Module VersionRequirement.
Record t := mk {
  MinVersion : option Version.t;   (* *Version *)
  MaxVersion : option Version.t
}.
End VersionRequirement.

(** NewVersionRequirement creates a new version requirement. *)
Definition NewVersionRequirement (minVersion maxVersion : string)
  : option VersionRequirement.t * option error :=
  let req := VersionRequirement.mk None None in
  let withMin : VersionRequirement.t + error :=
    if negb (String.eqb minVersion "") then
      match ParseVersion minVersion with
      | (_, Some err) => inr err
      | (v, None) => inl (VersionRequirement.mk v (VersionRequirement.MaxVersion req))
      end
    else inl req in
  match withMin with
  | inr err => (None, Some err)
  | inl req =>
      if negb (String.eqb maxVersion "") then
        match ParseVersion maxVersion with
        | (_, Some err) => (None, Some err)
        | (v, None) =>
            (Some (VersionRequirement.mk (VersionRequirement.MinVersion req) v), None)
        end
      else (Some req, None)
  end.

(** IsSatisfied returns true if the given version satisfies the
    requirement. *)
Definition VersionRequirement_IsSatisfied (r : VersionRequirement.t)
    (version : Version.t) : bool :=
  if match VersionRequirement.MinVersion r with
     | Some min => Version_LessThan version min
     | None => false
     end
  then false
  else if match VersionRequirement.MaxVersion r with
          | Some max => (0 <? Version_Compare version max)%Z
          | None => false
          end
  then false
  else true.

(** AssertVersionRequirement checks if the current version meets the
    requirement. *)
Definition AssertVersionRequirement (currentVersion minVersion maxVersion : string)
    (privilegeCloudRequired selfHostedRequired isPrivilegeCloud : bool)
  : option error :=
  if privilegeCloudRequired && negb isPrivilegeCloud then
    Some (errorString "this operation requires Privilege Cloud")
  else if selfHostedRequired && isPrivilegeCloud then
    Some (errorString
            "this operation requires Self-Hosted (not supported in Privilege Cloud)")
  else
    match ParseVersion currentVersion with
    | (_, Some err) => Some (wrapError "failed to parse current version: " err)
    | (None, None) => None
    | (Some current, None) =>
        match NewVersionRequirement minVersion maxVersion with
        | (_, Some err) =>
            Some (wrapError "failed to create version requirement: " err)
        | (None, None) => None
        | (Some req, None) =>
            if negb (VersionRequirement_IsSatisfied req current) then
              if negb (String.eqb minVersion "") && negb (String.eqb maxVersion "") then
                Some (errorString
                        ("this operation requires CyberArk version between "
                         +:+ minVersion +:+ " and " +:+ maxVersion
                         +:+ " (current: " +:+ currentVersion +:+ ")"))
              else if negb (String.eqb minVersion "") then
                Some (errorString
                        ("this operation requires CyberArk version " +:+ minVersion
                         +:+ " or higher (current: " +:+ currentVersion +:+ ")"))
              else if negb (String.eqb maxVersion "") then
                Some (errorString
                        ("this operation requires CyberArk version " +:+ maxVersion
                         +:+ " or lower (current: " +:+ currentVersion +:+ ")"))
              else None
            else None
        end
    end.

(** [strings.ReplaceAll(s, old, new)] for an [old] of one byte. *)
Fixpoint strings_ReplaceAll (s : string) (old : ascii) (new : string) : string :=
  match s with
  | EmptyString => EmptyString
  | String c r =>
      if Ascii.eqb c old then new +:+ strings_ReplaceAll r old new
      else String c (strings_ReplaceAll r old new)
  end.

Definition backslash : ascii := "092"%char.

(** EscapeString escapes special characters in a string for API requests. *)
Definition EscapeString (s : string) : string :=
  let s := strings_ReplaceAll s backslash (String backslash (String backslash "")) in
  let s := strings_ReplaceAll s double_quote
             (String backslash (String double_quote "")) in
  s.

(** HideSecretValue masks a secret value for logging. *)
Definition HideSecretValue (value : string) : string :=
  if (String.length value <=? 4)%nat then "****"
  else String.substring 0 2 value +:+ "****"
       +:+ String.substring (String.length value - 2) 2 value.

(** ** A test double for the standard library

    An instance of [GoRuntime] in the manner of the repository's tests
    (an [httptest] server answering with a fixed response, or recording what
    it was sent): it makes the functions above runnable on concrete inputs.
    Its JSON decoder covers the error format the API sends, an object whose
    members are strings without [\u] escapes, and reports anything else as
    an error, which is where it is coarser than encoding/json. *)

Module Mock.
Local Open Scope char_scope.

Definition quote : ascii := "034".
Definition backslash : ascii := "092".

Definition is_upper (c : ascii) : bool :=
  let n := nat_of_ascii c in ((65 <=? n) && (n <=? 90))%nat.
Definition is_lower (c : ascii) : bool :=
  let n := nat_of_ascii c in ((97 <=? n) && (n <=? 122))%nat.
Definition is_digit (c : ascii) : bool :=
  let n := nat_of_ascii c in ((48 <=? n) && (n <=? 57))%nat.
Definition to_upper (c : ascii) : ascii :=
  if is_lower c then ascii_of_nat (nat_of_ascii c - 32) else c.
Definition to_lower (c : ascii) : ascii :=
  if is_upper c then ascii_of_nat (nat_of_ascii c + 32) else c.

Fixpoint forall_chars (p : ascii -> bool) (s : string) : bool :=
  match s with
  | EmptyString => true
  | String c r => p c && forall_chars p r
  end.

Fixpoint map_chars (f : ascii -> ascii) (s : string) : string :=
  match s with
  | EmptyString => EmptyString
  | String c r => String (f c) (map_chars f r)
  end.

Fixpoint has_char (c : ascii) (s : string) : bool :=
  match s with
  | EmptyString => false
  | String d r => Ascii.eqb c d || has_char c r
  end.

(** net/textproto: the bytes allowed in a header field name. *)
Definition validHeaderFieldByte (c : ascii) : bool :=
  is_upper c || is_lower c || is_digit c || has_char c "!#$%&'*+-.^_`|~"%string.

Fixpoint canonicalise (upper : bool) (s : string) : string :=
  match s with
  | EmptyString => EmptyString
  | String c r =>
      let c := if upper && is_lower c then to_upper c
               else if negb upper && is_upper c then to_lower c
               else c in
      String c (canonicalise (Ascii.eqb c "-") r)
  end.

(** [textproto.CanonicalMIMEHeaderKey]: a key with a byte that is not
    allowed in a field name is returned unchanged; otherwise the first
    letter and every letter after a dash are upper case, the others lower
    case. *)
Definition CanonicalMIMEHeaderKey (s : string) : string :=
  if forall_chars validHeaderFieldByte s then canonicalise true s else s.

(** *** The decoder *)

Definition is_space (c : ascii) : bool :=
  let n := nat_of_ascii c in
  ((n =? 32) || (n =? 9) || (n =? 10) || (n =? 13))%nat.

Fixpoint skip_space (s : string) : string :=
  match s with
  | String c r => if is_space c then skip_space r else s
  | EmptyString => s
  end.

Definition unescape (c : ascii) : option ascii :=
  if Ascii.eqb c quote then Some quote
  else if Ascii.eqb c backslash then Some backslash
  else if Ascii.eqb c "/" then Some "/"
  else if Ascii.eqb c "b" then Some "008"
  else if Ascii.eqb c "f" then Some "012"
  else if Ascii.eqb c "n" then Some "010"
  else if Ascii.eqb c "r" then Some "013"
  else if Ascii.eqb c "t" then Some "009"
  else None.

(** The characters of a string literal after its opening quote, and the
    input that follows the closing quote. *)
Fixpoint scan_string (s : string) : option (string * string) :=
  match s with
  | EmptyString => None
  | String c r =>
      if Ascii.eqb c quote then Some (EmptyString, r)
      else if Ascii.eqb c backslash then
        match r with
        | String e r' =>
            match unescape e, scan_string r' with
            | Some a, Some (v, rest) => Some (String a v, rest)
            | _, _ => None
            end
        | EmptyString => None
        end
      else if (nat_of_ascii c <? 32)%nat then None
      else match scan_string r with
           | Some (v, rest) => Some (String c v, rest)
           | None => None
           end
  end.

(** [skip_space] and an opening quote, then [scan_string]. *)
Definition scan_literal (s : string) : option (string * string) :=
  match skip_space s with
  | String c r => if Ascii.eqb c quote then scan_string r else None
  | EmptyString => None
  end.

(** The members that follow the opening brace, up to the closing brace and
    the end of the input. *)
Fixpoint scan_members (fuel : nat) (s : string) : option (list (string * string)) :=
  match fuel with
  | O => None
  | S fuel =>
      match scan_literal s with
      | None => None
      | Some (k, r) =>
          match skip_space r with
          | String ":" r =>
              match scan_literal r with
              | None => None
              | Some (v, r) =>
                  match skip_space r with
                  | String "," r =>
                      match scan_members fuel r with
                      | Some ms => Some ((k, v) :: ms)
                      | None => None
                      end
                  | String "}" r =>
                      match skip_space r with
                      | EmptyString => Some [(k, v)]
                      | _ => None
                      end
                  | _ => None
                  end
              end
          | _ => None
          end
      end
  end.

Definition scan_object (s : string) : option (list (string * string)) :=
  match skip_space s with
  | String "{" r =>
      match skip_space r with
      | String "}" r' =>
          match skip_space r' with
          | EmptyString => Some []
          | _ => None
          end
      | _ => scan_members (String.length r) r
      end
  | _ => None
  end.

(** The value the members give to the field tagged [name] (matched without
    regard to the case of letters; the last member wins), or [old]. *)
Fixpoint field (name : string) (ms : list (string * string)) (old : string) : string :=
  match ms with
  | [] => old
  | (k, v) :: ms =>
      field name ms
        (if String.eqb (map_chars to_lower k) (map_chars to_lower name)
         then v else old)
  end.

Definition decoded (o : option (list (string * string))) : list (string * string) :=
  match o with Some ms => ms | None => [] end.

Definition Unmarshal (data : list byte) (e : APIError.t) : APIError.t * option error :=
  let o := scan_object (String.string_of_list_byte data) in
  (APIError.mk (APIError.StatusCode e)
               (field "ErrorCode" (decoded o) (APIError.ErrorCode e))
               (field "ErrorMessage" (decoded o) (APIError.ErrorMsg e))
               (field "Details" (decoded o) (APIError.Details e)),
   match o with
   | Some _ => None
   | None => Some (errorString "json: cannot decode the error object")
   end).

(** *** The rest of the double *)

(** A request body either serialises to given bytes or cannot be
    serialised (as a Go channel cannot). *)
Inductive value :=
| Serialises (bytes : list byte)
| Unserialisable.

Definition Marshal (v : value) : list byte + error :=
  match v with
  | Serialises b => inl b
  | Unserialisable => inr (errorString "json: unsupported type")
  end.

(** The query string, without percent-encoding. *)
Definition Encode (v : url_Values) : string :=
  String.concat "&"
    (flat_map (fun kvs => map (fun x => kvs.1 +:+ "=" +:+ x) kvs.2)
              (map_to_list v)).

(** A method must be made of field-name bytes. *)
Definition NewRequest_check (_ : unit) (method url : string) : option error :=
  if forall_chars validHeaderFieldByte method then None
  else Some (errorString "net/http: invalid method").

Definition body := (list byte + error)%type.
Definition handler := http_Request.t unit -> http_Response.t body + error.

Definition Client_Do (hc : http_Client.t handler) (req : http_Request.t unit)
  : http_Response.t body + error :=
  match http_Client.Transport hc with
  | Some serve => serve req
  | None => inr (errorString "dial tcp: connection refused")
  end.

#[export] Instance runtime : GoRuntime := {|
  any := value;
  context_Context := unit;
  http_RoundTripper := handler;
  io_ReadCloser := body;
  json_Marshal := Marshal;
  json_Unmarshal := Unmarshal;
  json_Unmarshal_StatusCode := fun _ _ => eq_refl;
  url_Values_Encode := Encode;
  http_NewRequest_check := NewRequest_check;
  textproto_CanonicalMIMEHeaderKey := CanonicalMIMEHeaderKey;
  textproto_default_keys_differ := ltac:(vm_compute; discriminate);
  http_Client_Do := Client_Do;
  io_ReadAll := fun b => b
|}.

(** A server that answers every request with [status] and [payload]. *)
Definition server (status : Z) (payload : string) : handler :=
  fun _ => inl (http_Response.mk status ∅ (inl (String.list_byte_of_string payload))).

(** A client for [server], as the tests build it. *)
Definition client (token : string) (serve : handler) : Client.t handler :=
  Client.mk (Some (http_Client.mk (30 * time_Second) (Some serve)))
            "https://host" "https://host/PasswordVault/API"
            token "application/json" (30 * time_Second).

Definition empty_heap : Heap.t (Client.t handler) := Heap.mk ∅ ∅.

(** A session at address 1 that owns the client at address 1. *)
Definition session (user token : string) (authenticated : bool)
    (lastCommand : string) : Session.t :=
  Session.mk (Some 1%positive) "https://host" "https://host/PasswordVault/API"
             user "" 0 lastCommand 0 None 0 authenticated "CyberArk" token false.

Definition heap (cv : Client.t handler) (v : Session.t) : Heap.t (Client.t handler) :=
  Heap.mk {[1%positive := cv]} {[1%positive := v]}.
End Mock.

(** A second test double, for the callers of the client: its default
    transport is a server, so that a client made by [NewClient] reaches it,
    and it decodes the response structs of the authentication package with
    the decoder of [Mock]. *)
Module MockAuth.

Definition Client_Do (serve : Mock.handler) (hc : http_Client.t Mock.handler)
    (req : http_Request.t unit) : http_Response.t Mock.body + error :=
  match http_Client.Transport hc with
  | Some custom => custom req
  | None => serve req
  end.

Definition runtime (serve : Mock.handler) : GoRuntime := {|
  any := Mock.value;
  context_Context := unit;
  http_RoundTripper := Mock.handler;
  io_ReadCloser := Mock.body;
  json_Marshal := Mock.Marshal;
  json_Unmarshal := Mock.Unmarshal;
  json_Unmarshal_StatusCode := fun _ _ => eq_refl;
  url_Values_Encode := Mock.Encode;
  http_NewRequest_check := Mock.NewRequest_check;
  textproto_CanonicalMIMEHeaderKey := Mock.CanonicalMIMEHeaderKey;
  textproto_default_keys_differ := ltac:(vm_compute; discriminate);
  http_Client_Do := Client_Do serve;
  io_ReadAll := fun b => b
|}.

Definition quoted (s : string) : string :=
  String Mock.quote (s +:+ String Mock.quote "").

(** The login request as JSON (strings are not escaped). *)
Definition LoginRequest_json (r : LoginRequest.t) : string :=
  "{" +:+ quoted "username" +:+ ":" +:+ quoted (LoginRequest.Username r) +:+ ","
  +:+ quoted "password" +:+ ":" +:+ quoted (LoginRequest.Password r)
  +:+ (if LoginRequest.ConcurrentSession r
       then "," +:+ quoted "concurrentSession" +:+ ":true" else "")
  +:+ "}".

Definition Unmarshal_LoginResponse (data : list byte) (r : LoginResponse.t)
  : LoginResponse.t * option error :=
  let o := Mock.scan_object (String.string_of_list_byte data) in
  (LoginResponse.mk
     (Mock.field "CyberArkLogonResult" (Mock.decoded o) (LoginResponse.Token r)),
   match o with
   | Some _ => None
   | None => Some (errorString "json: cannot decode the login response")
   end).

Definition Unmarshal_ServerInfo (data : list byte) (r : ServerInfo.t Z)
  : ServerInfo.t Z * option error :=
  let o := Mock.scan_object (String.string_of_list_byte data) in
  (ServerInfo.mk
     (Mock.field "ServerID" (Mock.decoded o) (ServerInfo.ServerID r))
     (Mock.field "ServerName" (Mock.decoded o) (ServerInfo.ServerName r))
     (Mock.field "ServicesUsed" (Mock.decoded o) (ServerInfo.ServicesUsed r))
     (Mock.field "ApplicationsUsed" (Mock.decoded o) (ServerInfo.ApplicationsUsed r))
     (ServerInfo.InternalVersion r)
     (Mock.field "ExternalVersion" (Mock.decoded o) (ServerInfo.ExternalVersion r)),
   match o with
   | Some _ => None
   | None => Some (errorString "json: cannot decode the server information")
   end).

Definition box_LoginRequest (serve : Mock.handler)
  : LoginRequest.t -> @any (runtime serve) :=
  fun r => Mock.Serialises (String.list_byte_of_string (LoginRequest_json r)).

Definition auth (serve : Mock.handler) : @AuthRuntime (runtime serve) := {|
  float64 := Z;
  float64_zero := 0;
  LoginRequest_any := box_LoginRequest serve;
  json_Unmarshal_LoginResponse := Unmarshal_LoginResponse;
  json_Unmarshal_ServerInfo := Unmarshal_ServerInfo
|}.

(** A server that answers by the URL of the request, and with 404 and an
    empty body for a URL it does not know. *)
Definition routes (table : list (string * (Z * string))) : Mock.handler :=
  fun req =>
    match find (fun r => String.eqb (http_Request.URL req) r.1) table with
    | Some (_, (status, payload)) =>
        inl (http_Response.mk status ∅ (inl (String.list_byte_of_string payload)))
    | None => inl (http_Response.mk 404 ∅ (inl []))
    end.

Definition options (baseURL user password : string) (skipVersionCheck : bool)
  : SessionOptions.t Mock.handler :=
  SessionOptions.mk baseURL (Credentials.mk user password) "" false
                    skipVersionCheck None.

(** A vault at [https://host]: the login answers with the token as a JSON
    string, the server information with version 14.0, and the log-off with
    401. *)
Definition vault : Mock.handler :=
  routes
    [("https://host/PasswordVault/API/Auth/CyberArk/Logon", (200, quoted "tok123"));
     ("https://host/PasswordVault/API/WebServices/PIMServices.svc/Server",
      (200, "{" +:+ quoted "ExternalVersion" +:+ ":" +:+ quoted "14.0" +:+ "}"));
     ("https://host/PasswordVault/API/Auth/Logoff", (401, ""))].

(** The client [NewClient] builds for [https://host], holding [token]. *)
Definition default_client (token : string) : Client.t Mock.handler :=
  Client.mk (Some (http_Client.mk (30 * time_Second) None))
            "https://host" "https://host/PasswordVault/API"
            token "application/json" (30 * time_Second).
End MockAuth.

Abbreviation mock := Mock.runtime.
Abbreviation bytes := String.list_byte_of_string.

(** ** The contract, in the words of the interface description *)

(** The fixed table of default messages, keyed by status code. *)
Definition default_message (status : Z) : string :=
  if (status =? 400)%Z then "Bad Request"
  else if (status =? 401)%Z then "Unauthorized"
  else if (status =? 403)%Z then "Forbidden"
  else if (status =? 404)%Z then "Not Found"
  else if (status =? 409)%Z then "Conflict"
  else if (status =? 500)%Z then "Internal Server Error"
  else "HTTP Error " +:+ pretty status.

(** "[SetAuthenticated] was called after construction or after the most
    recent [Close]": some call in the sequence is a [SetAuthenticated] that
    no [Close] follows. *)
Definition authenticated_since_close (ops : list SessionOp) : Prop :=
  exists pre user token authMethod post,
    ops = (pre ++ SetAuthenticated user token authMethod :: post)%list /\
    Forall (fun op => op <> Close) post.

(** The calls that write the authentication state of a session. *)
Definition writes_auth (op : SessionOp) : bool :=
  match op with
  | SetAuthenticated _ _ _ | Close => true
  | _ => false
  end.

(** What [IsValid] answers after a sequence of calls on a session for
    which it answered [b] before: the calls are followed one by one, and
    only [SetAuthenticated] and [Close] change the answer. *)
Fixpoint valid_after (b : bool) (ops : list SessionOp) : bool :=
  match ops with
  | [] => b
  | op :: ops =>
      valid_after
        match op with
        | SetAuthenticated _ token _ => negb (String.eqb token "")
        | Close => false
        | _ => b
        end
        ops
  end.

Definition is_SetAuthenticated (op : SessionOp) : bool :=
  match op with
  | SetAuthenticated _ _ _ => true
  | _ => false
  end.

(** The session at [s] exists and its [Client] field points to the
    client at [c], which exists. *)
Definition owns {C} (h : Heap.t C) (s c : loc) : Prop :=
  exists v, Heap.sessions h !! s = Some v /\
            Session.Client v = Some c /\
            is_Some (Heap.clients h !! c).

(** The lexicographic order on versions: by major, then minor, then
    patch. *)
Definition version_lt (v w : Version.t) : Prop :=
  (Version.Major v < Version.Major w)%Z \/
  (Version.Major v = Version.Major w /\
   ((Version.Minor v < Version.Minor w)%Z \/
    (Version.Minor v = Version.Minor w /\ (Version.Patch v < Version.Patch w)%Z))).

(** The 64-bit [int]. *)
Definition is_int (n : Z) : Prop := (- 2 ^ 63 <= n < 2 ^ 63)%Z.

(** Reading an escaped string back: a backslash stands for the byte after
    it. *)
Fixpoint unescape (s : string) : string :=
  match s with
  | EmptyString => EmptyString
  | String c r =>
      if Ascii.eqb c backslash then
        match r with
        | String d r' => String d (unescape r')
        | EmptyString => String c EmptyString
        end
      else String c (unescape r)
  end.

(** * Properties *)

(** ** Strings *)

Lemma app_empty (t : string) : "" +:+ t = t.
Proof. reflexivity. Qed.

Lemma app_String (a : ascii) (s t : string) : String a s +:+ t = String a (s +:+ t).
Proof. reflexivity. Qed.

Lemma substring_all (c : string) : String.substring 0 (String.length c) c = c.
Proof. induction c as [|a c IH]; simpl; [done|]. by rewrite IH. Qed.

Lemma substring_prefix (b c : string) :
  String.substring 0 (String.length b) (b +:+ c) = b.
Proof.
  induction b as [|a b IH].
  - rewrite app_empty. by destruct c.
  - rewrite app_String. simpl. by rewrite IH.
Qed.

Lemma substring_suffix (b c : string) :
  String.substring (String.length b) (String.length c) (b +:+ c) = c.
Proof.
  induction b as [|a b IH].
  - rewrite app_empty. apply substring_all.
  - rewrite app_String. simpl. done.
Qed.

Lemma substring_split (k : nat) (s : string) :
  (k <= String.length s)%nat ->
  s = String.substring 0 k s +:+ String.substring k (String.length s - k) s.
Proof.
  revert k. induction s as [|a s IH]; intros [|k] Hk; simpl in *; try lia.
  - done.
  - by rewrite app_empty, substring_all.
  - rewrite app_String. f_equal. apply IH. lia.
Qed.

Lemma length_app_string (b c : string) :
  String.length (b +:+ c) = (String.length b + String.length c)%nat.
Proof.
  induction b as [|a b IH]; [done|].
  rewrite app_String. simpl. by rewrite IH.
Qed.

Lemma HasSuffix_app (b c : string) : strings_HasSuffix (b +:+ c) c = true.
Proof.
  unfold strings_HasSuffix. rewrite length_app_string.
  replace (String.length b + String.length c - String.length c)%nat
    with (String.length b) by lia.
  rewrite substring_suffix, String.eqb_refl, andb_true_r.
  apply Nat.leb_le. lia.
Qed.

Lemma HasSuffix_inv (s c : string) :
  strings_HasSuffix s c = true -> exists b, s = b +:+ c.
Proof.
  unfold strings_HasSuffix. intros [Hle Heq]%andb_true_iff.
  apply Nat.leb_le in Hle. apply String.eqb_eq in Heq.
  set (k := (String.length s - String.length c)%nat) in *.
  exists (String.substring 0 k s).
  etrans; [apply (substring_split k); lia|].
  f_equal. by replace (String.length s - k)%nat with (String.length c) by lia.
Qed.

Lemma TrimSuffix_app (b c : string) : strings_TrimSuffix (b +:+ c) c = b.
Proof.
  unfold strings_TrimSuffix. rewrite HasSuffix_app, length_app_string.
  replace (String.length b + String.length c - String.length c)%nat
    with (String.length b) by lia.
  apply substring_prefix.
Qed.

Lemma TrimSuffix_none (s c : string) :
  (forall b, s <> b +:+ c) -> strings_TrimSuffix s c = s.
Proof.
  intros Hno. unfold strings_TrimSuffix.
  destruct (strings_HasSuffix s c) eqn:Hs; [|done].
  apply HasSuffix_inv in Hs as [b ->]. by destruct (Hno b).
Qed.

Lemma string_eqb_empty (s : string) : String.eqb s "" = false <-> s <> "".
Proof. by rewrite String.eqb_neq. Qed.

(** ** Store computations *)

Ltac unfold_M :=
  unfold bind, ret, panic, alloc, load, store, on_clients, on_sessions in *.

Lemma fresh_unallocated {A} (m : gmap loc A) : m !! fresh (dom m) = None.
Proof. apply not_elem_of_dom, is_fresh. Qed.

Lemma string_of_list_byte_empty (bs : list byte) :
  String.string_of_list_byte bs = "" -> bs = [].
Proof. by destruct bs. Qed.

(** ** The client *)

Section ClientProps.
Context `{GoRuntime}.


Lemma NewClient_empty (cfg : Config.t http_RoundTripper) (cs : gmap loc ClientT) :
  Config.BaseURL cfg = "" ->
  NewClient cfg cs = Some ((None, Some (errorString "baseURL is required")), cs).
Proof. intros E. unfold NewClient. by rewrite E. Qed.

Lemma NewClient_nonempty (cfg : Config.t http_RoundTripper) (cs : gmap loc ClientT) :
  Config.BaseURL cfg <> "" ->
  exists c v,
    NewClient cfg cs = Some ((Some c, None), <[c := v]> cs) /\
    cs !! c = None /\
    Client.baseURL v = strings_TrimSuffix (Config.BaseURL cfg) "/" /\
    Client.apiURL v = Client.baseURL v +:+ "/PasswordVault/API" /\
    Client.authToken v = "" /\
    is_Some (Client.httpClient v).
Proof.
  intros E%string_eqb_empty. unfold NewClient. rewrite E. unfold_M.
  eexists _, _. split; [reflexivity|]. simpl.
  split; [apply fresh_unallocated|].
  repeat split. by destruct (Config.CustomHTTPClient cfg).
Qed.

(** The message [parseAPIError] leaves when the message is still empty
    after the body was looked at. *)
Lemma switch_default_message (status : Z) :
  match status with
  | 400 => "Bad Request"
  | 401 => "Unauthorized"
  | 403 => "Forbidden"
  | 404 => "Not Found"
  | 409 => "Conflict"
  | 500 => "Internal Server Error"
  | _ => "HTTP Error " +:+ pretty status
  end%Z = default_message status.
Proof.
  unfold default_message.
  repeat match goal with
         | |- context [(status =? ?n)%Z] =>
             destruct (Z.eqb_spec status n) as [->|?]; [reflexivity|]
         end.
  repeat match goal with
         | |- match ?x with _ => _ end = _ => destruct x; try done
         end.
Qed.

Lemma custom_headers_keep (key : string) (hs : list (string * string)) (h : http_Header) :
  Forall (fun kv => textproto_CanonicalMIMEHeaderKey kv.1 <> key) hs ->
  foldl (fun h kv => http_Header_Set h kv.1 kv.2) h hs !! key = h !! key.
Proof.
  intros Hhs. revert h. induction Hhs as [|kv hs Hkv _ IH]; intros h; simpl; [done|].
  rewrite IH. unfold http_Header_Set. by rewrite lookup_insert_ne.
Qed.

(** The header map of the outbound request: the defaults, then the custom
    headers in the order of the loop. *)
Lemma outbound_header
    (c : ClientT) (ctx : context_Context) (req : Request.t any)
    (httpReq : http_Request.t context_Context) :
  Client_Do_request c ctx req = inl httpReq ->
  http_Request.Header httpReq =
    foldl (fun h kv => http_Header_Set h kv.1 kv.2)
          (let h := http_Header_Set ∅ "Content-Type" (Client.contentType c) in
           if negb (String.eqb (Client.authToken c) "")
           then http_Header_Set h "Authorization" (Client.authToken c)
           else h)
          (Request.Headers req).
Proof.
  intros Hreq. unfold Client_Do_request in Hreq.
  destruct (match Request.Body req with Some _ => _ | None => _ end)
    as [bodyReader|]; [|done].
  unfold http_NewRequestWithContext in Hreq.
  destruct (http_NewRequest_check _ _ _); [done|].
  by injection Hreq as <-.
Qed.

(** C4. For every non-empty base URL [NewClient] succeeds and returns a
    newly allocated client; exactly one trailing slash is stripped from
    the base URL when there is one (a base URL [b/] is stored as [b],
    whatever [b] ends in) and a base URL without a trailing slash is
    stored as it is; the API URL is the stored base URL followed by
    [/PasswordVault/API]. With the empty base URL [NewClient] returns no
    client and the configuration error, and allocates nothing. *)
Theorem NewClient_trims_one_slash_and_derives_api_url
    (cfg : Config.t http_RoundTripper) (cs : gmap loc ClientT) :
  (Config.BaseURL cfg <> "" ->
   exists c v,
     NewClient cfg cs = Some ((Some c, None), <[c := v]> cs) /\
     cs !! c = None /\
     (forall b, Config.BaseURL cfg = b +:+ "/" -> Client.baseURL v = b) /\
     ((forall b, Config.BaseURL cfg <> b +:+ "/") ->
      Client.baseURL v = Config.BaseURL cfg) /\
     Client.apiURL v = Client.baseURL v +:+ "/PasswordVault/API") /\
  (Config.BaseURL cfg = "" ->
   NewClient cfg cs = Some ((None, Some (errorString "baseURL is required")), cs)).
Proof.
  split; [|apply NewClient_empty].
  intros Hne. destruct (NewClient_nonempty cfg cs Hne) as (c & v & Hrun & Hc & Hb & Ha & _).
  exists c, v. repeat split; [done..| | |done].
  - intros b Eb. rewrite Hb, Eb. apply TrimSuffix_app.
  - intros Hno. rewrite Hb. by apply TrimSuffix_none.
Qed.

(** C1, as the code has it. For every response with status >= 400
    [parseAPIError] returns an API error such that: when the body is
    empty its message is the default for the status (Bad Request,
    Unauthorized, Forbidden, Not Found, Conflict, Internal Server Error,
    or HTTP Error N); when the body is not empty and the decoder rejects
    it, its message is the raw body, never replaced by the default; and
    when the decoder accepts the body but leaves the message empty, its
    message is again the default for the status. *)
Theorem parseAPIError_message (resp : Response.t) :
  (400 <= Response.StatusCode resp)%Z ->
  let status := Response.StatusCode resp in
  let decoding := json_Unmarshal (Response.Body resp) (APIError.mk status "" "" "") in
  exists e,
    parseAPIError resp = apiError e /\
    (Response.Body resp = [] -> APIError.ErrorMsg e = default_message status) /\
    (Response.Body resp <> [] -> decoding.2 <> None ->
     APIError.ErrorMsg e = String.string_of_list_byte (Response.Body resp) /\
     APIError.ErrorMsg e <> "") /\
    (Response.Body resp <> [] -> decoding.2 = None ->
     APIError.ErrorMsg decoding.1 = "" ->
     APIError.ErrorMsg e = default_message status).
Proof.
  intros _ status decoding. unfold parseAPIError. fold status. fold decoding.
  destruct (Response.Body resp) as [|b bs] eqn:Ebody; simpl.
  - eexists. split; [reflexivity|]. simpl.
    repeat split; try done. intros _. apply switch_default_message.
  - destruct decoding as [e' [err|]]; simpl.
    + eexists. split; [reflexivity|]. simpl. repeat split; done.
    + destruct (String.eqb (APIError.ErrorMsg e') "") eqn:Emsg.
      * eexists. split; [reflexivity|]. simpl.
        repeat split; try done. intros _ _ _. apply switch_default_message.
      * eexists. split; [reflexivity|].
        repeat split; try done. intros _ _ E. apply String.eqb_neq in Emsg. done.
Qed.

(** C3. When the transport answers the outbound request with a status >=
    400 and the body of the answer is read successfully, [Do] returns both
    a response and an error: the response carries the server's status, the
    raw body and the headers, and the error is an API error whose status
    code is the server's status. *)
Theorem Do_error_status_returns_error_and_response
    (cs : gmap loc ClientT) (c : loc) (v : ClientT)
    (hc : http_Client.t http_RoundTripper)
    (ctx : context_Context) (req : Request.t any)
    (httpReq : http_Request.t context_Context)
    (httpResp : http_Response.t io_ReadCloser) (respBody : list byte) :
  cs !! c = Some v ->
  Client.httpClient v = Some hc ->
  Client_Do_request v ctx req = inl httpReq ->
  http_Client_Do hc httpReq = inl httpResp ->
  io_ReadAll (http_Response.Body httpResp) = inl respBody ->
  (400 <= http_Response.StatusCode httpResp)%Z ->
  exists e,
    Client_Do (Some c) ctx req cs =
      Some ((Some (Response.mk (http_Response.StatusCode httpResp) respBody
                               (http_Response.Header httpResp)),
             Some (apiError e)), cs) /\
    APIError.StatusCode e = http_Response.StatusCode httpResp.
Proof.
  intros Hc Hhc Hreq Hdo Hread Hstatus.
  unfold Client_Do, Client_Do_response. unfold_M.
  rewrite Hc, Hreq, Hhc, Hdo, Hread.
  apply Z.leb_le in Hstatus. rewrite Hstatus.
  unfold parseAPIError; simpl.
  set (e0 := APIError.mk _ "" "" "").
  pose proof (json_Unmarshal_StatusCode respBody e0) as Hsc.
  destruct (0 <? length respBody)%nat.
  - destruct (json_Unmarshal respBody e0) as [e' [err|]]; simpl in Hsc.
    + destruct (String.eqb _ ""); eexists; (split; [reflexivity|done]).
    + destruct (String.eqb _ ""); eexists; (split; [reflexivity|done]).
  - destruct (String.eqb _ ""); eexists; (split; [reflexivity|done]).
Qed.

(** C5, as the code has it. Let [Do] build the outbound request for a
    request none of whose custom header names is, in canonical form, the
    Authorization header. If the client's token is not empty, the
    outbound request has exactly one Authorization value, the token
    itself with nothing added; if the token is empty, the outbound
    request has no Authorization header. *)
Theorem Do_authorization_header
    (c : ClientT) (ctx : context_Context) (req : Request.t any)
    (httpReq : http_Request.t context_Context) :
  Client_Do_request c ctx req = inl httpReq ->
  Forall (fun kv => textproto_CanonicalMIMEHeaderKey kv.1 <>
                    textproto_CanonicalMIMEHeaderKey "Authorization")
         (Request.Headers req) ->
  (Client.authToken c <> "" ->
   http_Header_Values (http_Request.Header httpReq) "Authorization"
     = Some [Client.authToken c]) /\
  (Client.authToken c = "" ->
   http_Header_Values (http_Request.Header httpReq) "Authorization" = None).
Proof.
  intros Hreq Hcustom. unfold http_Header_Values.
  rewrite (outbound_header c ctx req httpReq Hreq).
  rewrite custom_headers_keep by done. simpl.
  split.
  - intros Htok%string_eqb_empty. rewrite Htok; simpl.
    unfold http_Header_Set. by rewrite lookup_insert_eq.
  - intros Htok. rewrite Htok; simpl.
    unfold http_Header_Set. rewrite lookup_insert_ne; [done|].
    apply textproto_default_keys_differ.
Qed.
End ClientProps.

(** ** The session *)

Lemma valid_after_app (b : bool) (ops1 ops2 : list SessionOp) :
  valid_after b (ops1 ++ ops2) = valid_after (valid_after b ops1) ops2.
Proof. revert b. induction ops1 as [|op ops1 IH]; intros b; simpl; [done|]. apply IH. Qed.

(** [valid_after] is decided by the last call that writes the authentication
    state. *)
Lemma valid_after_true (b : bool) (ops : list SessionOp) :
  valid_after b ops = true <->
  (b = true /\ Forall (fun op => writes_auth op = false) ops) \/
  (exists pre user token authMethod post,
     ops = pre ++ SetAuthenticated user token authMethod :: post /\
     token <> "" /\
     Forall (fun op => writes_auth op = false) post).
Proof.
  revert b. induction ops as [|op ops IH]; intros b; simpl.
  - split; [intros ->; by left|]. intros [[-> _]|(pre & ? & ? & ? & ? & E & _)]; [done|].
    by destruct pre.
  - rewrite IH. split.
    + intros [[Hb Hops]|(pre & u & t & m & post & -> & Ht & Hpost)].
      * destruct op; try (left; split; [done|by constructor]).
        right. exists [], user, token, authMethod, ops.
        apply negb_true_iff, String.eqb_neq in Hb. done.
      * right. by exists (op :: pre), u, t, m, post.
    + intros [[-> Hops]|(pre & u & t & m & post & E & Ht & Hpost)].
      * apply Forall_cons in Hops as [Hop Hops]. left. split; [|done].
        by destruct op.
      * destruct pre as [|op' pre]; simplify_eq/=.
        -- left. split; [|done]. by apply negb_true_iff, String.eqb_neq.
        -- right. by exists pre, u, t, m, post.
Qed.

Section SessionProps.
Context `{GoRuntime}.


Ltac run_with Hs :=
  unfold_M; simpl; rewrite ?Hs; simpl; rewrite ?Hs; simpl.

Lemma IsValid_run (h : HeapT) (s : loc) (v : Session.t) :
  Heap.sessions h !! s = Some v ->
  Session_IsValid (Some s) h =
    Some (Session.IsAuthenticated v && negb (String.eqb (Session.SessionToken v) ""), h).
Proof. intros Hs. unfold Session_IsValid. run_with Hs. by destruct h. Qed.

Lemma SetAuthenticated_run (h : HeapT) (s c : loc) (v : Session.t)
    (cv : Client.t http_RoundTripper) (user token authMethod : string) :
  Heap.sessions h !! s = Some v ->
  Session.Client v = Some c ->
  Heap.clients h !! c = Some cv ->
  Session_SetAuthenticated (Some s) user token authMethod h =
    Some (tt, Heap.mk
      (<[c := set_authToken cv token]> (Heap.clients h))
      (<[s := Session.mk
           (Session.Client v) (Session.BaseURI v) (Session.APIURI v) user
           (Session.ExternalVersion v) (Session.StartTime v)
           (Session.LastCommand v) (Session.LastCommandTime v)
           (Session.LastError v) (Session.LastErrorTime v)
           true authMethod token (Session.PrivilegeCloud v)]>
         (Heap.sessions h))).
Proof.
  intros Hs Hc Hcv. unfold Session_SetAuthenticated, Client_SetAuthToken.
  run_with Hs. rewrite Hc. run_with Hcv. done.
Qed.

Lemma Close_run (h : HeapT) (s : loc) (v : Session.t) :
  Heap.sessions h !! s = Some v ->
  Session_Close (Some s) h =
    Some (tt, Heap.mk
      (Heap.clients h)
      (<[s := Session.mk
           (Session.Client v) (Session.BaseURI v) (Session.APIURI v)
           (Session.User v) (Session.ExternalVersion v) (Session.StartTime v)
           (Session.LastCommand v) (Session.LastCommandTime v)
           (Session.LastError v) (Session.LastErrorTime v)
           false (Session.AuthMethod v) "" (Session.PrivilegeCloud v)]>
         (Heap.sessions h))).
Proof. intros Hs. unfold Session_Close. by run_with Hs. Qed.

Lemma Clone_run (h : HeapT) (s : loc) (v : Session.t) :
  Heap.sessions h !! s = Some v ->
  Session_Clone (Some s) h =
    Some (Some (fresh (dom (Heap.sessions h))), Heap.mk
      (Heap.clients h)
      (<[fresh (dom (Heap.sessions h)) := Session.mk
           (Session.Client v) (Session.BaseURI v) (Session.APIURI v)
           (Session.User v) (Session.ExternalVersion v) (Session.StartTime v)
           "" 0 None 0
           (Session.IsAuthenticated v) (Session.AuthMethod v)
           (Session.SessionToken v) (Session.PrivilegeCloud v)]>
         (Heap.sessions h))).
Proof. intros Hs. unfold Session_Clone. by run_with Hs. Qed.

Lemma fresh_session_ne (h : HeapT) (s : loc) (v : Session.t) :
  Heap.sessions h !! s = Some v -> fresh (dom (Heap.sessions h)) <> s.
Proof.
  intros Hs E. pose proof (fresh_unallocated (Heap.sessions h)) as Hf.
  rewrite E in Hf. congruence.
Qed.

(** One call on a session that owns its client: it returns, the session
    still owns the client, [IsValid] changes as [valid_after] says, and
    only [SetAuthenticated] writes to the store of clients. *)
Lemma call_owns (h : HeapT) (s c : loc) (op : SessionOp) :
  owns h s c ->
  exists h',
    call (Some s) op h = Some (tt, h') /\
    owns h' s c /\
    (forall b, Session_IsValid (Some s) h = Some (b, h) ->
               Session_IsValid (Some s) h' = Some (valid_after b [op], h')) /\
    (is_SetAuthenticated op = false -> Heap.clients h' = Heap.clients h).
Proof.
  intros (v & Hs & Hc & [cv Hcv]).
  pose proof (IsValid_run h s v Hs) as Hvalid.
  destruct op; simpl.
  - rewrite (SetAuthenticated_run h s c v cv) by done.
    eexists. split; [reflexivity|]. split; [|split; [|done]].
    + eexists. simpl. rewrite lookup_insert_eq. split; [done|]. simpl.
      split; [done|]. by rewrite lookup_insert_eq.
    + intros b _. erewrite IsValid_run by (simpl; apply lookup_insert_eq). done.
  - unfold Session_SetVersion. run_with Hs.
    eexists. split; [reflexivity|]. split; [|split; [|done]].
    + eexists. simpl. rewrite lookup_insert_eq. eauto.
    + intros b Hb. erewrite IsValid_run by (simpl; apply lookup_insert_eq).
      simpl. congruence.
  - unfold Session_SetPrivilegeCloud. run_with Hs.
    eexists. split; [reflexivity|]. split; [|split; [|done]].
    + eexists. simpl. rewrite lookup_insert_eq. eauto.
    + intros b Hb. erewrite IsValid_run by (simpl; apply lookup_insert_eq).
      simpl. congruence.
  - unfold Session_UpdateLastCommand. run_with Hs.
    eexists. split; [reflexivity|]. split; [|split; [|done]].
    + eexists. simpl. rewrite lookup_insert_eq. eauto.
    + intros b Hb. erewrite IsValid_run by (simpl; apply lookup_insert_eq).
      simpl. congruence.
  - unfold Session_UpdateLastError. run_with Hs.
    eexists. split; [reflexivity|]. split; [|split; [|done]].
    + eexists. simpl. rewrite lookup_insert_eq. eauto.
    + intros b Hb. erewrite IsValid_run by (simpl; apply lookup_insert_eq).
      simpl. congruence.
  - unfold Session_GetElapsedTime. run_with Hs.
    exists h. destruct h as [cs ss]; simpl in *.
    split; [done|]. split; [|split; [|done]].
    + exists v. eauto.
    + intros b Hb. congruence.
  - rewrite (Close_run h s v) by done.
    eexists. split; [reflexivity|]. split; [|split; [|done]].
    + eexists. simpl. rewrite lookup_insert_eq. eauto.
    + intros b _. erewrite IsValid_run by (simpl; apply lookup_insert_eq). done.
  - unfold bind. rewrite (Clone_run h s v) by done.
    eexists. split; [reflexivity|]. split; [|split; [|done]].
    + exists v. simpl. rewrite lookup_insert_ne by by eapply fresh_session_ne. eauto.
    + intros b Hb. erewrite IsValid_run
        by (simpl; rewrite lookup_insert_ne by (by eapply fresh_session_ne); done).
      simpl. congruence.
  - unfold bind. rewrite Hvalid.
    exists h. split; [done|]. split; [|split; [|done]].
    + exists v. eauto.
    + intros b Hb. simpl. congruence.
Qed.

Lemma calls_owns (h : HeapT) (s c : loc) (ops : list SessionOp) :
  owns h s c ->
  exists h',
    calls (Some s) ops h = Some (tt, h') /\
    owns h' s c /\
    (forall b, Session_IsValid (Some s) h = Some (b, h) ->
               Session_IsValid (Some s) h' = Some (valid_after b ops, h')) /\
    (Forall (fun op => is_SetAuthenticated op = false) ops ->
     Heap.clients h' = Heap.clients h).
Proof.
  revert h. induction ops as [|op ops IH]; intros h Hown.
  - exists h. by repeat split.
  - destruct (call_owns h s c op Hown) as (h1 & Hcall & Hown1 & Hvalid1 & Hcs1).
    destruct (IH h1 Hown1) as (h2 & Hcalls & Hown2 & Hvalid2 & Hcs2).
    exists h2. simpl. unfold bind at 1. rewrite Hcall.
    split; [done|]. split; [done|]. split.
    + intros b Hb. rewrite (Hvalid2 _ (Hvalid1 b Hb)). done.
    + intros [Hop Hops]%Forall_cons. rewrite Hcs2, Hcs1; done.
Qed.

(** [NewSession] with a non-empty base URI: a new client and a new,
    unauthenticated session that owns it. *)
Lemma NewSession_run (h : HeapT) (baseURI : string) (now : time_Time) :
  baseURI <> "" ->
  exists s c cv v,
    NewSession baseURI now h =
      Some ((Some s, None),
            Heap.mk (<[c := cv]> (Heap.clients h)) (<[s := v]> (Heap.sessions h))) /\
    Heap.clients h !! c = None /\
    Heap.sessions h !! s = None /\
    v = Session.mk (Some c) baseURI (Client.apiURL cv) "" "" now "" 0 None 0
                   false "" "" false /\
    Client.baseURL cv = strings_TrimSuffix baseURI "/" /\
    Client.apiURL cv = Client.baseURL cv +:+ "/PasswordVault/API" /\
    Client.authToken cv = "".
Proof.
  intros Hne.
  destruct (NewClient_nonempty (Config.mk baseURI 0 false None) (Heap.clients h) Hne)
    as (c & cv & Hrun & Hc & Hb & Ha & Ht & _).
  exists (fresh (dom (Heap.sessions h))), c, cv. eexists.
  unfold NewSession, Client_GetAPIURL. unfold bind at 1. unfold on_clients at 1.
  rewrite Hrun. unfold_M. simpl. rewrite lookup_insert_eq. simpl.
  split; [reflexivity|]. repeat split; try done. apply fresh_unallocated.
Qed.

Lemma calls_app (h h1 : HeapT) (s : option loc) (ops1 ops2 : list SessionOp) :
  calls s ops1 h = Some (tt, h1) ->
  calls s (ops1 ++ ops2) h = calls s ops2 h1.
Proof.
  revert h. induction ops1 as [|op ops1 IH]; intros h; simpl.
  - unfold ret. congruence.
  - unfold bind. destruct (call s op h) as [[[] h']|]; [apply IH|done].
Qed.

(** C2, as the code has it. Take a session made by [NewSession] and any
    sequence of calls on it. All of them return, and [IsValid] then
    answers true if and only if the last call that was a
    [SetAuthenticated] or a [Close] exists, is a [SetAuthenticated], and
    was given a non-empty token. In particular [IsValid] answers false
    when the last call was a [Close]. *)
Theorem IsValid_iff_last_auth_call_has_token
    (h : HeapT) (baseURI : string) (now : time_Time) (ops : list SessionOp) :
  baseURI <> "" ->
  exists s h1 h2 b,
    NewSession baseURI now h = Some ((Some s, None), h1) /\
    calls (Some s) ops h1 = Some (tt, h2) /\
    Session_IsValid (Some s) h2 = Some (b, h2) /\
    (b = true <->
     exists pre user token authMethod post,
       ops = pre ++ SetAuthenticated user token authMethod :: post /\
       token <> "" /\
       Forall (fun op => writes_auth op = false) post) /\
    (forall pre, ops = pre ++ [Close] -> b = false).
Proof.
  intros Hne.
  destruct (NewSession_run h baseURI now Hne)
    as (s & c & cv & v & Hnew & Hc & Hs & Hv & _).
  set (h1 := Heap.mk _ _) in Hnew.
  assert (owns h1 s c) as Hown.
  { exists v. simpl. rewrite !lookup_insert_eq. by rewrite Hv. }
  assert (Session_IsValid (Some s) h1 = Some (false, h1)) as Hvalid.
  { erewrite IsValid_run by (simpl; apply lookup_insert_eq). by rewrite Hv. }
  destruct (calls_owns h1 s c ops Hown) as (h2 & Hcalls & _ & Hvalid2 & _).
  exists s, h1, h2, (valid_after false ops).
  split; [done|]. split; [done|]. split; [by apply Hvalid2|]. split.
  - rewrite valid_after_true. split; [|by right]. by intros [[??]|?].
  - intros pre ->. by rewrite valid_after_app.
Qed.

(** C6. On a session that owns a client, [SetAuthenticated(user, token,
    authMethod)] returns, and afterwards the session's [User],
    [SessionToken] and [AuthMethod] are the arguments, its authenticated
    flag is true, and [GetAuthToken] on the session's client returns
    the token. *)
Theorem SetAuthenticated_sets_session_and_client_token
    (h : HeapT) (s c : loc) (user token authMethod : string) :
  owns h s c ->
  exists h' v',
    Session_SetAuthenticated (Some s) user token authMethod h = Some (tt, h') /\
    Heap.sessions h' !! s = Some v' /\
    Session.User v' = user /\
    Session.SessionToken v' = token /\
    Session.AuthMethod v' = authMethod /\
    Session.IsAuthenticated v' = true /\
    Session.Client v' = Some c /\
    on_clients (Client_GetAuthToken (Session.Client v')) h' = Some (token, h').
Proof.
  intros (v & Hs & Hc & [cv Hcv]).
  eexists _, _. split; [by apply (SetAuthenticated_run h s c v cv)|].
  simpl. rewrite lookup_insert_eq. split; [done|]. simpl.
  repeat split; try done.
  rewrite Hc. unfold Client_GetAuthToken. unfold_M. simpl.
  by rewrite lookup_insert_eq.
Qed.

(** C7. On an authenticated session [Close] returns, and afterwards the
    authenticated flag is false and [SessionToken] is empty, while every
    other field of the session is what it was, [User] and [AuthMethod]
    among them; the clients and the other sessions are untouched. *)
Theorem Close_clears_auth_and_keeps_other_fields
    (h : HeapT) (s : loc) (v : Session.t) :
  Heap.sessions h !! s = Some v ->
  Session.IsAuthenticated v = true ->
  exists h' v',
    Session_Close (Some s) h = Some (tt, h') /\
    Heap.sessions h' !! s = Some v' /\
    Session.IsAuthenticated v' = false /\
    Session.SessionToken v' = "" /\
    Session.User v' = Session.User v /\
    Session.AuthMethod v' = Session.AuthMethod v /\
    Session.Client v' = Session.Client v /\
    Session.BaseURI v' = Session.BaseURI v /\
    Session.APIURI v' = Session.APIURI v /\
    Session.ExternalVersion v' = Session.ExternalVersion v /\
    Session.StartTime v' = Session.StartTime v /\
    Session.LastCommand v' = Session.LastCommand v /\
    Session.LastCommandTime v' = Session.LastCommandTime v /\
    Session.LastError v' = Session.LastError v /\
    Session.LastErrorTime v' = Session.LastErrorTime v /\
    Session.PrivilegeCloud v' = Session.PrivilegeCloud v /\
    Heap.clients h' = Heap.clients h /\
    (forall s', s' <> s -> Heap.sessions h' !! s' = Heap.sessions h !! s').
Proof.
  intros Hs _. eexists _, _. split; [by apply Close_run|].
  simpl. rewrite lookup_insert_eq. split; [done|]. simpl.
  repeat split; try done. intros s' Hne. by rewrite lookup_insert_ne.
Qed.

(** C8. [Clone] on a session returns a pointer to a newly allocated
    session whose [User], [SessionToken], [AuthMethod], [IsAuthenticated],
    [PrivilegeCloud] and [APIURI] (and [BaseURI], [ExternalVersion],
    [StartTime]) are those of the original, whose [Client] is the same
    pointer, no client being allocated, and whose [LastCommand] is empty
    whatever the original's is; the original is unchanged. *)
Theorem Clone_copies_fields_shares_client_resets_LastCommand
    (h : HeapT) (s : loc) (v : Session.t) :
  Heap.sessions h !! s = Some v ->
  exists p h' v',
    Session_Clone (Some s) h = Some (Some p, h') /\
    Heap.sessions h !! p = None /\
    Heap.sessions h' !! p = Some v' /\
    Heap.sessions h' !! s = Some v /\
    Heap.clients h' = Heap.clients h /\
    Session.User v' = Session.User v /\
    Session.SessionToken v' = Session.SessionToken v /\
    Session.AuthMethod v' = Session.AuthMethod v /\
    Session.IsAuthenticated v' = Session.IsAuthenticated v /\
    Session.PrivilegeCloud v' = Session.PrivilegeCloud v /\
    Session.APIURI v' = Session.APIURI v /\
    Session.BaseURI v' = Session.BaseURI v /\
    Session.ExternalVersion v' = Session.ExternalVersion v /\
    Session.StartTime v' = Session.StartTime v /\
    Session.Client v' = Session.Client v /\
    Session.LastCommand v' = "".
Proof.
  intros Hs. eexists _, _, _. split; [by apply Clone_run|].
  simpl. rewrite lookup_insert_eq.
  split; [apply fresh_unallocated|]. split; [done|].
  split; [by rewrite lookup_insert_ne by by eapply fresh_session_ne|].
  by repeat split.
Qed.

(** C9. Let [SetAuthenticated(user, t, m)] with a non-empty [t] be
    called on a session that owns a client, then any calls other than
    [SetAuthenticated], then [Close]. All of them return; the session's
    token is then empty, but [GetAuthToken] on its client still returns
    [t], and the outbound request [Do] builds on that client for any
    request (without a custom header that is the Authorization header in
    canonical form) still carries [t] as its Authorization value. *)
Theorem Close_keeps_client_token
    (h : HeapT) (s c : loc) (user t m : string) (ops : list SessionOp) :
  owns h s c ->
  t <> "" ->
  Forall (fun op => is_SetAuthenticated op = false) ops ->
  exists h' v' cv',
    calls (Some s) (SetAuthenticated user t m :: ops ++ [Close]) h = Some (tt, h') /\
    Heap.sessions h' !! s = Some v' /\
    Session.SessionToken v' = "" /\
    Session.Client v' = Some c /\
    on_clients (Client_GetAuthToken (Some c)) h' = Some (t, h') /\
    Heap.clients h' !! c = Some cv' /\
    (forall ctx req httpReq,
       Client_Do_request cv' ctx req = inl httpReq ->
       Forall (fun kv => textproto_CanonicalMIMEHeaderKey kv.1 <>
                         textproto_CanonicalMIMEHeaderKey "Authorization")
              (Request.Headers req) ->
       http_Header_Values (http_Request.Header httpReq) "Authorization" = Some [t]).
Proof.
  intros Hown Ht Hops.
  pose proof Hown as (v & Hs & Hc & [cv Hcv]).
  pose proof (SetAuthenticated_run h s c v cv user t m Hs Hc Hcv) as Hset.
  set (h1 := Heap.mk _ _) in Hset.
  assert (owns h1 s c) as Hown1.
  { eexists. simpl. rewrite !lookup_insert_eq. eauto. }
  destruct (calls_owns h1 s c ops Hown1) as (h2 & Hcalls & Hown2 & _ & Hcs2).
  specialize (Hcs2 Hops).
  destruct Hown2 as (v2 & Hs2 & Hc2 & _).
  pose proof (Close_run h2 s v2 Hs2) as Hclose.
  set (h3 := Heap.mk _ _) in Hclose.
  assert (Heap.clients h3 !! c = Some (set_authToken cv t)) as Hcv3.
  { simpl. rewrite Hcs2. simpl. apply lookup_insert_eq. }
  exists h3. eexists. exists (set_authToken cv t).
  split.
  { simpl. unfold bind at 1. simpl. rewrite Hset.
    rewrite (calls_app h1 h2) by done. simpl. unfold bind. by rewrite Hclose. }
  split; [simpl; apply lookup_insert_eq|]. simpl.
  split; [done|]. split; [done|]. split.
  { unfold Client_GetAuthToken. unfold_M. simpl in *. by rewrite Hcv3. }
  split; [done|].
  intros ctx req httpReq Hreq Hcustom.
  unfold http_Header_Values.
  rewrite (outbound_header (set_authToken cv t) ctx req httpReq Hreq).
  rewrite custom_headers_keep by done. simpl.
  apply string_eqb_empty in Ht. rewrite Ht; simpl.
  unfold http_Header_Set. by rewrite lookup_insert_eq.
Qed.

Lemma app_slash_ne (b : string) : b +:+ "/" <> b.
Proof.
  intros E. apply (f_equal String.length) in E.
  rewrite length_app_string in E. simpl in E. lia.
Qed.

(** C10. For every non-empty base URI that ends in a slash, [b/],
    [NewSession] returns a new session whose [BaseURI] is the URI as it
    was given while [GetBaseURL] on its client returns [b], which is a
    different string, and whose [APIURI] is what [GetAPIURL] on its
    client returns, [b] followed by [/PasswordVault/API]. *)
Theorem NewSession_keeps_untrimmed_base_URI
    (h : HeapT) (baseURI b : string) (now : time_Time) :
  baseURI <> "" ->
  baseURI = b +:+ "/" ->
  exists s c h' v,
    NewSession baseURI now h = Some ((Some s, None), h') /\
    Heap.sessions h' !! s = Some v /\
    Session.BaseURI v = baseURI /\
    Session.Client v = Some c /\
    on_clients (Client_GetBaseURL (Some c)) h' = Some (b, h') /\
    Session.BaseURI v <> b /\
    on_clients (Client_GetAPIURL (Some c)) h' = Some (Session.APIURI v, h') /\
    Session.APIURI v = b +:+ "/PasswordVault/API".
Proof.
  intros Hne Eb.
  destruct (NewSession_run h baseURI now Hne)
    as (s & c & cv & v & Hnew & _ & _ & Hv & Hbase & Hapi & _).
  rewrite Eb, TrimSuffix_app in Hbase.
  eexists s, c, _, v. split; [done|].
  simpl. rewrite lookup_insert_eq. split; [done|].
  rewrite Hv; simpl. split; [done|]. split; [done|].
  unfold Client_GetBaseURL, Client_GetAPIURL. unfold_M. simpl.
  rewrite lookup_insert_eq. simpl. rewrite Hbase.
  split; [done|]. split; [rewrite Eb; apply app_slash_ne|].
  split; [done|]. by rewrite Hapi, Hbase.
Qed.
End SessionProps.

(** ** Runs on the test double *)


(** An empty body with status 404 gives the default message; a plain-text
    body with status 500 gives the body itself. *)
Lemma parseAPIError_message_witness :
  (exists e, @parseAPIError mock (Response.mk 404 [] ∅) = apiError e /\
             APIError.ErrorMsg e = "Not Found") /\
  (exists e, @parseAPIError mock
               (Response.mk 500 (bytes "Internal Server Error occurred") ∅)
             = apiError e /\
             APIError.ErrorMsg e = "Internal Server Error occurred").
Proof.
  split.
  - destruct (@parseAPIError_message mock (Response.mk 404 [] ∅))
      as (e & He & Hempty & _); [simpl; lia|].
    exists e. split; [exact He|]. exact (Hempty eq_refl).
  - destruct (@parseAPIError_message mock
                (Response.mk 500 (bytes "Internal Server Error occurred") ∅))
      as (e & He & _ & Hraw & _); [simpl; lia|].
    exists e. split; [exact He|].
    apply Hraw; vm_compute; discriminate.
Defined.

(** C1 as stated fails: status 500 with the body [Internal Server Error
    occurred], which the decoder rejects, gives that body as the message
    and not the default for 500. *)
Lemma parseAPIError_unparseable_body_counterexample :
  let resp := Response.mk 500 (bytes "Internal Server Error occurred") ∅ in
  (400 <= Response.StatusCode resp)%Z /\
  (@json_Unmarshal mock (Response.Body resp) (APIError.mk 500 "" "" "")).2 <> None /\
  @parseAPIError mock resp =
    apiError (APIError.mk 500 "" "Internal Server Error occurred" "") /\
  "Internal Server Error occurred" <> default_message 500.
Proof. vm_compute. repeat split; discriminate. Qed.

(** [NewClient] on [https://host/] and on the empty base URL. *)
Lemma NewClient_trims_one_slash_and_derives_api_url_witness :
  (exists c v,
     @NewClient mock (Config.mk "https://host/" 0 false None) ∅
       = Some ((Some c, None), <[c := v]> ∅) /\
     Client.baseURL v = "https://host" /\
     Client.apiURL v = "https://host/PasswordVault/API") /\
  @NewClient mock (Config.mk "" 0 false None) ∅
    = Some ((None, Some (errorString "baseURL is required")), ∅).
Proof.
  pose proof (@NewClient_trims_one_slash_and_derives_api_url mock
                (Config.mk "https://host/" 0 false None) ∅) as [Hok _].
  pose proof (@NewClient_trims_one_slash_and_derives_api_url mock
                (Config.mk "" 0 false None) ∅) as [_ Hempty].
  split; [|exact (Hempty eq_refl)].
  destruct Hok as (c & v & Hrun & _ & Hslash & _ & Hapi); [simpl; discriminate|].
  exists c, v. split; [exact Hrun|].
  rewrite Hapi, (Hslash "https://host" eq_refl). split; reflexivity.
Defined.

(** A server answering 404 with the body [nope]: [Do] returns the response
    and the API error. *)
Lemma Do_error_status_returns_error_and_response_witness :
  let cs : gmap loc (Client.t Mock.handler) :=
    {[1%positive := Mock.client "tok123" (Mock.server 404 "nope")]} in
  exists e,
    @Client_Do mock (Some 1%positive) tt (Request.mk "GET" "/Accounts" None ∅ []) cs
      = Some ((Some (Response.mk 404 (bytes "nope") ∅), Some (apiError e)), cs) /\
    APIError.StatusCode e = 404.
Proof.
  intros cs.
  eapply (@Do_error_status_returns_error_and_response mock cs 1%positive
            (Mock.client "tok123" (Mock.server 404 "nope")) _ tt
            (Request.mk "GET" "/Accounts" None ∅ []) _
            (http_Response.mk 404 ∅ (inl (bytes "nope"))) (bytes "nope")).
  - reflexivity.
  - reflexivity.
  - reflexivity.
  - reflexivity.
  - reflexivity.
  - simpl. lia.
Defined.

(** A client holding [tok123] and a request with one custom header that is
    not the Authorization header: the outbound request carries the token. *)
Lemma Do_authorization_header_witness :
  exists httpReq,
    @Client_Do_request mock (Mock.client "tok123" (Mock.server 200 "{}")) tt
      (Request.mk "GET" "/Accounts" None ∅ [("X-Custom", "v")]) = inl httpReq /\
    @http_Header_Values mock (http_Request.Header httpReq) "Authorization"
      = Some ["tok123"].
Proof.
  eexists. split; [reflexivity|].
  eapply (proj1 (@Do_authorization_header mock
                   (Mock.client "tok123" (Mock.server 200 "{}")) tt
                   (Request.mk "GET" "/Accounts" None ∅ [("X-Custom", "v")])
                   _ eq_refl _)).
  simpl. discriminate.
  Unshelve.
  simpl. repeat constructor. vm_compute. discriminate.
Defined.

(** C5 as stated fails: with the token [tok123] and the custom header
    [Authorization: Bearer other] the outbound request carries the custom
    value, not the token; with an empty token and the same custom header
    the outbound request has an Authorization header. *)
Lemma Do_custom_authorization_header_counterexample :
  let req : Request.t Mock.value :=
    Request.mk "GET" "/Accounts" None ∅ [("Authorization", "Bearer other")] in
  (exists httpReq,
     Client.authToken (Mock.client "tok123" (Mock.server 200 "{}")) = "tok123" /\
     @Client_Do_request mock (Mock.client "tok123" (Mock.server 200 "{}")) tt req
       = inl httpReq /\
     @http_Header_Values mock (http_Request.Header httpReq) "Authorization"
       = Some ["Bearer other"]) /\
  (exists httpReq,
     Client.authToken (Mock.client "" (Mock.server 200 "{}")) = "" /\
     @Client_Do_request mock (Mock.client "" (Mock.server 200 "{}")) tt req
       = inl httpReq /\
     @http_Header_Values mock (http_Request.Header httpReq) "Authorization"
       = Some ["Bearer other"]).
Proof. split; (eexists; split; [reflexivity|]; split; [reflexivity|]; by vm_compute). Qed.

(** [NewSession], [SetAuthenticated] with a token, then [Close]: [IsValid]
    answers false. *)
Lemma IsValid_iff_last_auth_call_has_token_witness :
  exists s h1 h2,
    @NewSession mock "https://host" 0 Mock.empty_heap = Some ((Some s, None), h1) /\
    @calls mock (Some s) [SetAuthenticated "alice" "tok123" "CyberArk"; Close] h1
      = Some (tt, h2) /\
    @Session_IsValid mock (Some s) h2 = Some (false, h2).
Proof.
  destruct (@IsValid_iff_last_auth_call_has_token mock Mock.empty_heap "https://host" 0
              [SetAuthenticated "alice" "tok123" "CyberArk"; Close])
    as (s & h1 & h2 & b & Hnew & Hcalls & Hvalid & _ & Hclose); [discriminate|].
  exists s, h1, h2. split; [exact Hnew|]. split; [exact Hcalls|].
  rewrite <-(Hclose [SetAuthenticated "alice" "tok123" "CyberArk"] eq_refl).
  exact Hvalid.
Defined.

(** C2 as stated fails: after [NewSession] and one [SetAuthenticated] with
    an empty token, [SetAuthenticated] has been called since construction
    and no [Close] followed, yet [IsValid] answers false. *)
Lemma IsValid_empty_token_counterexample :
  authenticated_since_close [SetAuthenticated "alice" "" "CyberArk"] /\
  exists s h1 h2,
    @NewSession mock "https://host" 0 Mock.empty_heap = Some ((Some s, None), h1) /\
    @calls mock (Some s) [SetAuthenticated "alice" "" "CyberArk"] h1 = Some (tt, h2) /\
    @Session_IsValid mock (Some s) h2 = Some (false, h2).
Proof.
  split.
  - exists [], "alice", "", "CyberArk", []. split; [reflexivity|constructor].
  - eexists _, _, _. split; [by vm_compute|]. split; by vm_compute.
Qed.

Lemma mock_heap_owns (cv : Client.t Mock.handler) (user token lastCommand : string)
    (authenticated : bool) :
  owns (Mock.heap cv (Mock.session user token authenticated lastCommand)) 1%positive 1%positive.
Proof.
  eexists. split; [reflexivity|]. split; [reflexivity|]. eexists. reflexivity.
Defined.

(** The scenario of the interface description:
    [SetAuthenticated("alice", "tok123", "CyberArk")]. *)
Lemma SetAuthenticated_sets_session_and_client_token_witness :
  let h := Mock.heap (Mock.client "" (Mock.server 200 "{}")) (Mock.session "" "" false "") in
  exists h' v',
    @Session_SetAuthenticated mock (Some 1%positive) "alice" "tok123" "CyberArk" h
      = Some (tt, h') /\
    Heap.sessions h' !! 1%positive = Some v' /\
    Session.User v' = "alice" /\
    Session.SessionToken v' = "tok123" /\
    Session.AuthMethod v' = "CyberArk" /\
    Session.IsAuthenticated v' = true /\
    Session.Client v' = Some 1%positive /\
    on_clients (@Client_GetAuthToken mock (Session.Client v')) h' = Some ("tok123", h').
Proof.
  intros h.
  apply (@SetAuthenticated_sets_session_and_client_token mock h 1%positive 1%positive
           "alice" "tok123" "CyberArk").
  apply mock_heap_owns.
Defined.

(** [Close] on the authenticated session of alice. *)
Lemma Close_clears_auth_and_keeps_other_fields_witness :
  let v := Mock.session "alice" "tok123" true "Get-PASAccount" in
  let h := Mock.heap (Mock.client "tok123" (Mock.server 200 "{}")) v in
  exists h' v',
    @Session_Close mock (Some 1%positive) h = Some (tt, h') /\
    Heap.sessions h' !! 1%positive = Some v' /\
    Session.IsAuthenticated v' = false /\
    Session.SessionToken v' = "" /\
    Session.User v' = "alice" /\
    Session.AuthMethod v' = "CyberArk".
Proof.
  intros v h.
  destruct (@Close_clears_auth_and_keeps_other_fields mock h 1%positive v)
    as (h' & v' & Hrun & Hs & Hauth & Htok & Huser & Hmethod & _);
    [reflexivity|reflexivity|].
  exists h', v'. rewrite Huser, Hmethod. repeat split; assumption.
Defined.

(** [Clone] on a session whose [LastCommand] is not empty. *)
Lemma Clone_copies_fields_shares_client_resets_LastCommand_witness :
  let v := Mock.session "alice" "tok123" true "Get-PASAccount" in
  let h := Mock.heap (Mock.client "tok123" (Mock.server 200 "{}")) v in
  exists p h' v',
    @Session_Clone mock (Some 1%positive) h = Some (Some p, h') /\
    Heap.sessions h !! p = None /\
    Heap.sessions h' !! p = Some v' /\
    Session.Client v' = Some 1%positive /\
    Session.SessionToken v' = "tok123" /\
    Session.LastCommand v' = "".
Proof.
  intros v h.
  destruct (@Clone_copies_fields_shares_client_resets_LastCommand mock h 1%positive v)
    as (p & h' & v' & Hrun & Hnew & Hp & _ & _ & _ & Htok & _ & _ & _ & _ & _ & _ & _
        & Hclient & Hcmd); [reflexivity|].
  exists p, h', v'. rewrite Hclient, Htok. repeat split; assumption.
Defined.

(** [SetAuthenticated] with [tok123], a command, then [Close]: the client
    still holds [tok123]. *)
Lemma Close_keeps_client_token_witness :
  let h := Mock.heap (Mock.client "" (Mock.server 200 "{}")) (Mock.session "" "" false "") in
  exists h' v',
    @calls mock (Some 1%positive)
       [SetAuthenticated "alice" "tok123" "CyberArk";
        UpdateLastCommand "Get-PASAccount" 7; Close] h = Some (tt, h') /\
    Heap.sessions h' !! 1%positive = Some v' /\
    Session.SessionToken v' = "" /\
    on_clients (@Client_GetAuthToken mock (Some 1%positive)) h' = Some ("tok123", h').
Proof.
  intros h.
  destruct (@Close_keeps_client_token mock h 1%positive 1%positive "alice" "tok123" "CyberArk"
              [UpdateLastCommand "Get-PASAccount" 7])
    as (h' & v' & cv' & Hrun & Hs & Htok & _ & Hget & _).
  - apply mock_heap_owns.
  - discriminate.
  - repeat constructor.
  - exists h', v'. repeat split; assumption.
Defined.

(** [NewSession] on [https://host/]. *)
Lemma NewSession_keeps_untrimmed_base_URI_witness :
  exists s c h' v,
    @NewSession mock "https://host/" 0 Mock.empty_heap = Some ((Some s, None), h') /\
    Heap.sessions h' !! s = Some v /\
    Session.BaseURI v = "https://host/" /\
    on_clients (@Client_GetBaseURL mock (Some c)) h' = Some ("https://host", h') /\
    Session.APIURI v = "https://host/PasswordVault/API".
Proof.
  destruct (@NewSession_keeps_untrimmed_base_URI mock Mock.empty_heap
              "https://host/" "https://host" 0)
    as (s & c & h' & v & Hrun & Hs & Hbase & _ & Hget & _ & _ & Hapi);
    [discriminate|reflexivity|].
  exists s, c, h', v. repeat split; assumption.
Defined.

(** * Further properties of the client *)

Section ClientMore.
Context `{GoRuntime}.

(** [SetAuthToken(t)] followed by [GetAuthToken()] returns [t], for every
    string [t], the empty one included; the URLs of the client and every
    other client are unchanged. *)
Theorem SetAuthToken_then_GetAuthToken
    (cs : Clients) (c : loc) (v : ClientT) (token : string) :
  cs !! c = Some v ->
  exists cs',
    Client_SetAuthToken (Some c) token cs = Some (tt, cs') /\
    Client_GetAuthToken (Some c) cs' = Some (token, cs') /\
    Client_GetBaseURL (Some c) cs' = Some (Client.baseURL v, cs') /\
    Client_GetAPIURL (Some c) cs' = Some (Client.apiURL v, cs') /\
    (forall c', c' <> c -> cs' !! c' = cs !! c').
Proof.
  intros Hc. exists (<[c := set_authToken v token]> cs).
  unfold Client_SetAuthToken, Client_GetAuthToken, Client_GetBaseURL, Client_GetAPIURL.
  unfold_M. rewrite Hc, lookup_insert_eq. simpl. rewrite Hc.
  split; [done|]. split; [done|]. split; [done|]. split; [done|].
  intros c' Hne. by rewrite lookup_insert_ne.
Qed.

(** What [Do] returns once the transport has answered and the body has been
    read: the response, with an API error exactly when the status is 400 or
    more. *)
Lemma Do_response_read (hc : http_Client.t http_RoundTripper)
    (httpReq : http_Request.t context_Context)
    (httpResp : http_Response.t io_ReadCloser) (respBody : list byte) :
  http_Client_Do hc httpReq = inl httpResp ->
  io_ReadAll (http_Response.Body httpResp) = inl respBody ->
  let resp := Response.mk (http_Response.StatusCode httpResp) respBody
                          (http_Response.Header httpResp) in
  Client_Do_response hc httpReq =
    (Some resp,
     if (400 <=? http_Response.StatusCode httpResp)%Z
     then Some (parseAPIError resp) else None).
Proof.
  intros Hdo Hread. unfold Client_Do_response. rewrite Hdo, Hread.
  by destruct (400 <=? _)%Z.
Qed.

(** [parseAPIError] always returns an API error with the status of the
    response. *)
Lemma parseAPIError_status (resp : Response.t) :
  exists e, parseAPIError resp = apiError e /\
            APIError.StatusCode e = Response.StatusCode resp.
Proof.
  unfold parseAPIError.
  set (e0 := APIError.mk _ "" "" "").
  pose proof (json_Unmarshal_StatusCode (Response.Body resp) e0) as Hsc.
  destruct (0 <? length (Response.Body resp))%nat.
  - destruct (json_Unmarshal (Response.Body resp) e0) as [e' [err|]]; simpl in Hsc;
      destruct (String.eqb _ ""); eexists; (split; [reflexivity|done]).
  - destruct (String.eqb _ ""); eexists; (split; [reflexivity|done]).
Qed.

(** When the transport answers with a status below 400 and the body is
    read, [Do] returns the response, with the server's status, body and
    headers, and a nil error. *)
Theorem Do_success_returns_response_and_nil_error
    (cs : Clients) (c : loc) (v : ClientT)
    (hc : http_Client.t http_RoundTripper)
    (ctx : context_Context) (req : Request.t any)
    (httpReq : http_Request.t context_Context)
    (httpResp : http_Response.t io_ReadCloser) (respBody : list byte) :
  cs !! c = Some v ->
  Client.httpClient v = Some hc ->
  Client_Do_request v ctx req = inl httpReq ->
  http_Client_Do hc httpReq = inl httpResp ->
  io_ReadAll (http_Response.Body httpResp) = inl respBody ->
  (http_Response.StatusCode httpResp < 400)%Z ->
  Client_Do (Some c) ctx req cs =
    Some ((Some (Response.mk (http_Response.StatusCode httpResp) respBody
                             (http_Response.Header httpResp)),
           None), cs).
Proof.
  intros Hc Hhc Hreq Hdo Hread Hstatus.
  unfold Client_Do. unfold_M. rewrite Hc, Hreq, Hhc.
  rewrite (Do_response_read hc httpReq httpResp respBody Hdo Hread).
  apply Z.leb_gt in Hstatus. by rewrite Hstatus.
Qed.

(** The shape of every result of [Do] on a client with a transport: [Do]
    returns, it leaves the store of clients as it was, and either the
    response is nil and the error is a wrapped error (never an API error),
    or the response is not nil and the error is nil when the status is
    below 400 and an API error with the same status otherwise. *)
Theorem Do_result_shape
    (cs : Clients) (c : loc) (v : ClientT)
    (ctx : context_Context) (req : Request.t any) :
  cs !! c = Some v ->
  is_Some (Client.httpClient v) ->
  exists resp err,
    Client_Do (Some c) ctx req cs = Some ((resp, err), cs) /\
    (resp = None -> exists msg inner, err = Some (wrapError msg inner)) /\
    (forall r, resp = Some r ->
       (Response.StatusCode r < 400 /\ err = None)%Z \/
       (400 <= Response.StatusCode r /\
        exists e, err = Some (apiError e) /\
                  APIError.StatusCode e = Response.StatusCode r)%Z).
Proof.
  intros Hc [hc Hhc]. unfold Client_Do. unfold_M. rewrite Hc.
  destruct (Client_Do_request v ctx req) as [httpReq|err] eqn:Hreq.
  - rewrite Hhc. unfold Client_Do_response.
    destruct (http_Client_Do hc httpReq) as [httpResp|err].
    + destruct (io_ReadAll _) as [respBody|err].
      * destruct (Z.leb_spec 400 (http_Response.StatusCode httpResp)).
        -- eexists _, _. split; [reflexivity|]. split; [done|].
           intros r [= <-]. right. split; [done|].
           destruct (parseAPIError_status
                       (Response.mk (http_Response.StatusCode httpResp) respBody
                                    (http_Response.Header httpResp)))
             as (e & -> & He).
           by exists e.
        -- eexists _, _. split; [reflexivity|]. split; [done|].
           intros r [= <-]. by left.
      * eexists _, _. split; [reflexivity|]. split; [eauto|done].
    + eexists _, _. split; [reflexivity|]. split; [eauto|done].
  - eexists _, _. split; [reflexivity|]. split; [|done]. intros _.
    unfold Client_Do_request in Hreq.
    destruct (Request.Body req) as [body|].
    + destruct (json_Marshal body); [|injection Hreq as <-; eauto].
      unfold http_NewRequestWithContext in Hreq.
      destruct (http_NewRequest_check _ _ _); [|done]. injection Hreq as <-; eauto.
    + unfold http_NewRequestWithContext in Hreq.
      destruct (http_NewRequest_check _ _ _); [|done]. injection Hreq as <-; eauto.
Qed.

(** A request body that cannot be serialised: [Do] returns no response and
    the serialisation error, wrapped, whatever the transport would answer,
    and even on a client without a transport. *)
Theorem Do_marshal_failure_is_returned_before_the_transport
    (cs : Clients) (c : loc) (v : ClientT)
    (ctx : context_Context) (req : Request.t any) (body : any) (err : error) :
  cs !! c = Some v ->
  Request.Body req = Some body ->
  json_Marshal body = inr err ->
  Client_Do (Some c) ctx req cs =
    Some ((None, Some (wrapError "failed to marshal request body: " err)), cs).
Proof.
  intros Hc Hbody Hmarshal. unfold Client_Do, Client_Do_request. unfold_M.
  by rewrite Hc, Hbody, Hmarshal.
Qed.

Lemma custom_headers_last (hs : list (string * string)) (h : http_Header)
    (k v : string) (post : list (string * string)) :
  Forall (fun kv => textproto_CanonicalMIMEHeaderKey kv.1 <>
                    textproto_CanonicalMIMEHeaderKey k) post ->
  foldl (fun h kv => http_Header_Set h kv.1 kv.2) h (hs ++ (k, v) :: post)
    !! textproto_CanonicalMIMEHeaderKey k = Some [v].
Proof.
  intros Hpost. rewrite foldl_app. simpl.
  rewrite custom_headers_keep by done.
  unfold http_Header_Set at 1. simpl. by rewrite lookup_insert_eq.
Qed.

(** Custom headers override the defaults and each other: a custom header
    [k: v] that no later custom header with the same canonical name
    follows is the only value of [k] in the outbound request, also when
    [k] is Content-Type or Authorization. *)
Theorem Do_last_custom_header_wins
    (c : ClientT) (ctx : context_Context) (req : Request.t any)
    (httpReq : http_Request.t context_Context)
    (pre post : list (string * string)) (k v : string) :
  Client_Do_request c ctx req = inl httpReq ->
  Request.Headers req = pre ++ (k, v) :: post ->
  Forall (fun kv => textproto_CanonicalMIMEHeaderKey kv.1 <>
                    textproto_CanonicalMIMEHeaderKey k) post ->
  http_Header_Values (http_Request.Header httpReq) k = Some [v].
Proof.
  intros Hreq Hhs Hpost. unfold http_Header_Values.
  rewrite (outbound_header c ctx req httpReq Hreq), Hhs.
  by apply custom_headers_last.
Qed.

Lemma default_message_nonempty (status : Z) : default_message status <> "".
Proof.
  unfold default_message.
  repeat match goal with
         | |- context [(status =? ?n)%Z] => destruct (status =? n)%Z; [done|]
         end.
  done.
Qed.

(** The API error [parseAPIError] returns never has an empty message, and
    always has the status of the response, for every status and body. *)
Theorem parseAPIError_message_is_never_empty (resp : Response.t) :
  exists e,
    parseAPIError resp = apiError e /\
    APIError.StatusCode e = Response.StatusCode resp /\
    APIError.ErrorMsg e <> "".
Proof.
  unfold parseAPIError.
  set (e0 := APIError.mk _ "" "" "").
  pose proof (json_Unmarshal_StatusCode (Response.Body resp) e0) as Hsc.
  rewrite switch_default_message.
  pose proof (default_message_nonempty (Response.StatusCode resp)) as Hdef.
  destruct (Response.Body resp) as [|b bs] eqn:Ebody; simpl.
  - eexists. split; [reflexivity|]. simpl. done.
  - destruct (json_Unmarshal (b :: bs) e0) as [e' [err|]]; simpl in *.
    + eexists. split; [reflexivity|]. done.
    + destruct (String.eqb (APIError.ErrorMsg e') "") eqn:Emsg.
      * eexists. split; [reflexivity|]. done.
      * exists e'. split; [reflexivity|]. split; [done|]. by apply String.eqb_neq.
Qed.

(** A body from which the decoder reads a non-empty message: the API error
    is exactly what the decoder produced, error code and details included,
    and no default is substituted. *)
Theorem parseAPIError_keeps_decoded_error
    (resp : Response.t) (decoded : APIError.t) :
  Response.Body resp <> [] ->
  json_Unmarshal (Response.Body resp)
                 (APIError.mk (Response.StatusCode resp) "" "" "") = (decoded, None) ->
  APIError.ErrorMsg decoded <> "" ->
  parseAPIError resp = apiError decoded.
Proof.
  intros Hbody Hdec Hmsg. unfold parseAPIError. rewrite Hdec.
  destruct (Response.Body resp); [done|]. simpl.
  apply String.eqb_neq in Hmsg. by rewrite Hmsg.
Qed.

(** The error [Do] returns for a status of 400 or more is recognised by
    [IsAPIError] and [AsAPIError], and the classification helpers of the
    error they give answer by the server's status: [IsBadRequest] exactly
    for 400, [IsUnauthorized] for 401, [IsForbidden] for 403, [IsNotFound]
    for 404 and [IsConflict] for 409. *)
Theorem Do_error_is_classified_by_status
    (cs : Clients) (c : loc) (v : ClientT)
    (hc : http_Client.t http_RoundTripper)
    (ctx : context_Context) (req : Request.t any)
    (httpReq : http_Request.t context_Context)
    (httpResp : http_Response.t io_ReadCloser) (respBody : list byte) :
  cs !! c = Some v ->
  Client.httpClient v = Some hc ->
  Client_Do_request v ctx req = inl httpReq ->
  http_Client_Do hc httpReq = inl httpResp ->
  io_ReadAll (http_Response.Body httpResp) = inl respBody ->
  (400 <= http_Response.StatusCode httpResp)%Z ->
  let status := http_Response.StatusCode httpResp in
  exists resp err e,
    Client_Do (Some c) ctx req cs = Some ((resp, err), cs) /\
    IsAPIError err = true /\
    AsAPIError err = (Some e, true) /\
    (APIError_IsBadRequest e = true <-> status = 400) /\
    (APIError_IsUnauthorized e = true <-> status = 401) /\
    (APIError_IsForbidden e = true <-> status = 403) /\
    (APIError_IsNotFound e = true <-> status = 404) /\
    (APIError_IsConflict e = true <-> status = 409).
Proof.
  intros Hc Hhc Hreq Hdo Hread Hstatus status.
  unfold Client_Do. unfold_M. rewrite Hc, Hreq, Hhc.
  rewrite (Do_response_read hc httpReq httpResp respBody Hdo Hread).
  apply Z.leb_le in Hstatus. rewrite Hstatus.
  destruct (parseAPIError_status
              (Response.mk (http_Response.StatusCode httpResp) respBody
                           (http_Response.Header httpResp)))
    as (e & -> & He).
  simpl in He. eexists _, _, e. split; [reflexivity|].
  split; [done|]. split; [done|].
  unfold APIError_IsBadRequest, APIError_IsUnauthorized, APIError_IsForbidden,
    APIError_IsNotFound, APIError_IsConflict.
  rewrite He. fold status. rewrite !Z.eqb_eq. done.
Qed.
End ClientMore.

(** * Further properties of the session *)

Section SessionMore.
Context `{GoRuntime}.

Ltac run_session Hs :=
  unfold_M; simpl; rewrite ?Hs; simpl; rewrite ?Hs; simpl.

(** What one call does to a session that owns its client: the call
    returns; [Client], [BaseURI], [APIURI] and [StartTime] stay; a call
    other than [SetAuthenticated] and [Close] also leaves the
    authentication fields and every client alone; and the session's token
    is the client's token whenever the session is authenticated, if that
    was so before. *)
Lemma call_effect (h : HeapT) (s c : loc) (op : SessionOp)
    (v : Session.t) (cv : ClientT) :
  Heap.sessions h !! s = Some v ->
  Session.Client v = Some c ->
  Heap.clients h !! c = Some cv ->
  exists h' v' cv',
    call (Some s) op h = Some (tt, h') /\
    Heap.sessions h' !! s = Some v' /\
    Heap.clients h' !! c = Some cv' /\
    Session.Client v' = Some c /\
    Session.BaseURI v' = Session.BaseURI v /\
    Session.APIURI v' = Session.APIURI v /\
    Session.StartTime v' = Session.StartTime v /\
    (writes_auth op = false ->
     Session.User v' = Session.User v /\
     Session.SessionToken v' = Session.SessionToken v /\
     Session.AuthMethod v' = Session.AuthMethod v /\
     Session.IsAuthenticated v' = Session.IsAuthenticated v /\
     Heap.clients h' = Heap.clients h) /\
    ((Session.IsAuthenticated v = true -> Session.SessionToken v = Client.authToken cv) ->
     Session.IsAuthenticated v' = true -> Session.SessionToken v' = Client.authToken cv').
Proof.
  intros Hs Hc Hcv.
  destruct op; simpl.
  - rewrite (SetAuthenticated_run h s c v cv) by done.
    eexists _, _, _. split; [reflexivity|]. simpl. rewrite !lookup_insert_eq.
    split; [done|]. split; [done|]. simpl. by repeat split.
  - unfold Session_SetVersion. run_session Hs.
    eexists _, _, cv. split; [reflexivity|]. simpl. rewrite lookup_insert_eq.
    split; [done|]. split; [done|]. simpl. by repeat split.
  - unfold Session_SetPrivilegeCloud. run_session Hs.
    eexists _, _, cv. split; [reflexivity|]. simpl. rewrite lookup_insert_eq.
    split; [done|]. split; [done|]. simpl. by repeat split.
  - unfold Session_UpdateLastCommand. run_session Hs.
    eexists _, _, cv. split; [reflexivity|]. simpl. rewrite lookup_insert_eq.
    split; [done|]. split; [done|]. simpl. by repeat split.
  - unfold Session_UpdateLastError. run_session Hs.
    eexists _, _, cv. split; [reflexivity|]. simpl. rewrite lookup_insert_eq.
    split; [done|]. split; [done|]. simpl. by repeat split.
  - unfold Session_GetElapsedTime. run_session Hs.
    exists h, v, cv. destruct h as [cs ss]; simpl in *. by repeat split.
  - rewrite (Close_run h s v) by done.
    eexists _, _, cv. split; [reflexivity|]. simpl. rewrite lookup_insert_eq.
    split; [done|]. split; [done|]. simpl. by repeat split.
  - unfold bind. rewrite (Clone_run h s v) by done.
    eexists _, v, cv. split; [reflexivity|]. simpl.
    rewrite lookup_insert_ne by by eapply fresh_session_ne.
    by repeat split.
  - unfold bind. rewrite (IsValid_run h s v) by done.
    exists h, v, cv. by repeat split.
Qed.

(** The same for a sequence of calls. *)
Lemma calls_effect (h : HeapT) (s c : loc) (ops : list SessionOp)
    (v : Session.t) (cv : ClientT) :
  Heap.sessions h !! s = Some v ->
  Session.Client v = Some c ->
  Heap.clients h !! c = Some cv ->
  exists h' v' cv',
    calls (Some s) ops h = Some (tt, h') /\
    Heap.sessions h' !! s = Some v' /\
    Heap.clients h' !! c = Some cv' /\
    Session.Client v' = Some c /\
    Session.BaseURI v' = Session.BaseURI v /\
    Session.APIURI v' = Session.APIURI v /\
    Session.StartTime v' = Session.StartTime v /\
    (Forall (fun op => writes_auth op = false) ops ->
     Session.User v' = Session.User v /\
     Session.SessionToken v' = Session.SessionToken v /\
     Session.AuthMethod v' = Session.AuthMethod v /\
     Session.IsAuthenticated v' = Session.IsAuthenticated v /\
     Heap.clients h' = Heap.clients h) /\
    ((Session.IsAuthenticated v = true -> Session.SessionToken v = Client.authToken cv) ->
     Session.IsAuthenticated v' = true -> Session.SessionToken v' = Client.authToken cv').
Proof.
  revert h v cv. induction ops as [|op ops IH]; intros h v cv Hs Hc Hcv.
  - exists h, v, cv. by repeat split.
  - destruct (call_effect h s c op v cv Hs Hc Hcv)
      as (h1 & v1 & cv1 & Hcall & Hs1 & Hcv1 & Hc1 & Hb1 & Ha1 & Ht1 & Hframe1 & Hcons1).
    destruct (IH h1 v1 cv1 Hs1 Hc1 Hcv1)
      as (h2 & v2 & cv2 & Hcalls & Hs2 & Hcv2 & Hc2 & Hb2 & Ha2 & Ht2 & Hframe2 & Hcons2).
    exists h2, v2, cv2. simpl. unfold bind at 1. rewrite Hcall.
    split; [done|]. split; [done|]. split; [done|]. split; [done|].
    split; [congruence|]. split; [congruence|]. split; [congruence|]. split.
    + intros [Hop Hops]%Forall_cons.
      destruct (Hframe1 Hop) as (? & ? & ? & ? & ?).
      destruct (Hframe2 Hops) as (? & ? & ? & ? & ?).
      repeat split; congruence.
    + auto.
Qed.

(** [NewSession] with an empty base URI returns no session and the
    configuration error of [NewClient], and allocates nothing. *)
Theorem NewSession_empty_base_URI_fails (h : HeapT) (now : time_Time) :
  NewSession "" now h = Some ((None, Some (errorString "baseURL is required")), h).
Proof. unfold NewSession, NewClient. unfold_M. simpl. by destruct h. Qed.

(** A session fresh from [NewSession] is unauthenticated: [IsValid]
    answers false, the user, the token and the method are empty, its
    client holds no token, its start time is the time of the call, and the
    sessions and clients that existed before are untouched. *)
Theorem NewSession_starts_unauthenticated
    (h : HeapT) (baseURI : string) (now : time_Time) :
  baseURI <> "" ->
  exists s c h' v,
    NewSession baseURI now h = Some ((Some s, None), h') /\
    Heap.sessions h !! s = None /\
    Heap.clients h !! c = None /\
    Heap.sessions h' !! s = Some v /\
    Session.Client v = Some c /\
    Session_IsValid (Some s) h' = Some (false, h') /\
    Session.IsAuthenticated v = false /\
    Session.User v = "" /\
    Session.SessionToken v = "" /\
    Session.AuthMethod v = "" /\
    Session.StartTime v = now /\
    on_clients (Client_GetAuthToken (Some c)) h' = Some ("", h') /\
    (forall s', s' <> s -> Heap.sessions h' !! s' = Heap.sessions h !! s') /\
    (forall c', c' <> c -> Heap.clients h' !! c' = Heap.clients h !! c').
Proof.
  intros Hne.
  destruct (NewSession_run h baseURI now Hne)
    as (s & c & cv & v & Hnew & Hc & Hs & Hv & _ & _ & Htok).
  eexists s, c, _, v. split; [exact Hnew|].
  split; [done|]. split; [done|]. simpl. rewrite lookup_insert_eq.
  split; [done|]. rewrite Hv at 1. simpl. split; [done|].
  split. { erewrite IsValid_run by (simpl; apply lookup_insert_eq). by rewrite Hv. }
  rewrite Hv. simpl. repeat (split; [done|]).
  split. { unfold Client_GetAuthToken. unfold_M. simpl. by rewrite lookup_insert_eq, Htok. }
  split; intros x Hx; by rewrite lookup_insert_ne.
Qed.

(** A call other than [SetAuthenticated] and [Close] ([SetVersion],
    [SetPrivilegeCloud], [UpdateLastCommand], [UpdateLastError],
    [GetElapsedTime], [Clone], [IsValid]) returns and changes neither the
    answer of [IsValid], nor the session's user, token, method, flag and
    client, nor any client. *)
Theorem bookkeeping_calls_keep_authentication
    (h : HeapT) (s c : loc) (op : SessionOp) :
  owns h s c ->
  writes_auth op = false ->
  exists h' v v' b,
    call (Some s) op h = Some (tt, h') /\
    Heap.sessions h !! s = Some v /\
    Heap.sessions h' !! s = Some v' /\
    Session.User v' = Session.User v /\
    Session.SessionToken v' = Session.SessionToken v /\
    Session.AuthMethod v' = Session.AuthMethod v /\
    Session.IsAuthenticated v' = Session.IsAuthenticated v /\
    Session.Client v' = Session.Client v /\
    Heap.clients h' = Heap.clients h /\
    Session_IsValid (Some s) h = Some (b, h) /\
    Session_IsValid (Some s) h' = Some (b, h').
Proof.
  intros (v & Hs & Hc & [cv Hcv]) Hop.
  destruct (call_effect h s c op v cv Hs Hc Hcv)
    as (h' & v' & cv' & Hcall & Hs' & _ & Hc' & _ & _ & _ & Hframe & _).
  destruct (Hframe Hop) as (Hu & Ht & Hm & Ha & Hcs).
  exists h', v, v'. eexists.
  repeat (split; [done || congruence|]).
  rewrite (IsValid_run h s v Hs), (IsValid_run h' s v' Hs'). by rewrite Ha, Ht.
Qed.

(** Session and client agree while the session is authenticated: after
    [NewSession] and any sequence of calls on the session, if the
    authenticated flag is true then [SessionToken] is the token
    [GetAuthToken] returns on the session's client. *)
Theorem authenticated_session_token_is_client_token
    (h : HeapT) (baseURI : string) (now : time_Time) (ops : list SessionOp) :
  baseURI <> "" ->
  exists s h1 h2 v,
    NewSession baseURI now h = Some ((Some s, None), h1) /\
    calls (Some s) ops h1 = Some (tt, h2) /\
    Heap.sessions h2 !! s = Some v /\
    (Session.IsAuthenticated v = true ->
     on_clients (Client_GetAuthToken (Session.Client v)) h2
       = Some (Session.SessionToken v, h2)).
Proof.
  intros Hne.
  destruct (NewSession_run h baseURI now Hne)
    as (s & c & cv & v & Hnew & _ & _ & Hv & _ & _ & Htok).
  set (h1 := Heap.mk _ _) in Hnew.
  destruct (calls_effect h1 s c ops v cv)
    as (h2 & v2 & cv2 & Hcalls & Hs2 & Hcv2 & Hc2 & _ & _ & _ & _ & Hcons);
    [simpl; apply lookup_insert_eq|by rewrite Hv|simpl; apply lookup_insert_eq|].
  exists s, h1, h2, v2. split; [done|]. split; [done|]. split; [done|].
  intros Hauth. rewrite Hc2. unfold Client_GetAuthToken. unfold_M.
  rewrite Hcv2. rewrite Hcons; [by destruct h2|by rewrite Hv|done].
Qed.


(** [Close] is idempotent: closing a closed session again changes
    nothing. *)
Theorem Close_twice_is_Close (h : HeapT) (s : loc) (v : Session.t) :
  Heap.sessions h !! s = Some v ->
  exists h',
    Session_Close (Some s) h = Some (tt, h') /\
    Session_Close (Some s) h' = Some (tt, h').
Proof.
  intros Hs. eexists. split; [by apply Close_run|].
  erewrite Close_run by (simpl; apply lookup_insert_eq).
  simpl. by rewrite insert_insert_eq.
Qed.

(** A clone shares the client, not the session: [SetAuthenticated] on the
    clone leaves the original session as it was, its [SessionToken]
    included, but the token [GetAuthToken] returns on the original's
    client is now the clone's. *)
Theorem SetAuthenticated_on_clone_changes_the_shared_client
    (h : HeapT) (s c : loc) (user token authMethod : string) :
  owns h s c ->
  exists p h1 h2 v,
    Session_Clone (Some s) h = Some (Some p, h1) /\
    Session_SetAuthenticated (Some p) user token authMethod h1 = Some (tt, h2) /\
    p <> s /\
    Heap.sessions h !! s = Some v /\
    Heap.sessions h2 !! s = Some v /\
    on_clients (Client_GetAuthToken (Session.Client v)) h2 = Some (token, h2).
Proof.
  intros (v & Hs & Hc & [cv Hcv]).
  pose proof (fresh_session_ne h s v Hs) as Hp.
  eexists _, _, _, v. split; [by apply Clone_run|].
  split.
  { eapply (SetAuthenticated_run _ _ c); simpl;
      [apply lookup_insert_eq|done|done]. }
  split; [done|]. split; [done|]. simpl.
  split. { by rewrite !lookup_insert_ne by done. }
  rewrite Hc. unfold Client_GetAuthToken. unfold_M. simpl.
  by rewrite lookup_insert_eq.
Qed.
End SessionMore.

(** * Properties of the callers: authentication and accounts *)

(** ** trimQuotes *)

Lemma get_app_length (m r : string) (c : ascii) :
  String.get (String.length m) (m +:+ String c r) = Some c.
Proof. induction m as [|a m IH]; [done|]. rewrite app_String. simpl. exact IH. Qed.

Lemma substring_one (k : nat) (s : string) (c : ascii) :
  String.get k s = Some c -> String.substring k 1 s = String c "".
Proof.
  revert k. induction s as [|a s IH]; intros [|k] Hget; simpl in *; try done.
  - injection Hget as ->. by destruct s.
  - by apply IH.
Qed.

Lemma last_char (t : string) (c : ascii) :
  t <> "" ->
  String.get (String.length t - 1) t = Some c ->
  t = String.substring 0 (String.length t - 1) t +:+ String c "".
Proof.
  intros Hne Hget.
  assert (1 <= String.length t)%nat as Hlen by (destruct t; simpl; [done|lia]).
  etrans; [apply (substring_split (String.length t - 1) t); lia|].
  f_equal.
  replace (String.length t - (String.length t - 1))%nat with 1%nat by lia.
  by apply substring_one.
Qed.

Lemma quoted_inv (s : string) :
  (2 <= String.length s)%nat ->
  String.get 0 s = Some double_quote ->
  String.get (String.length s - 1) s = Some double_quote ->
  s = String double_quote
        (String.substring 1 (String.length s - 2) s +:+ String double_quote "").
Proof.
  destruct s as [|a t]; [simpl; lia|].
  change (String.length (String a t)) with (S (String.length t)).
  intros Hlen [= ->] Hlast.
  destruct (String.length t) as [|n] eqn:Hn; [lia|].
  replace (S (S n) - 1)%nat with (S n) in Hlast by lia.
  replace (S (S n) - 2)%nat with n by lia.
  simpl in Hlast. simpl. f_equal.
  replace n with (String.length t - 1)%nat in * by lia.
  apply last_char; [by destruct t|done].
Qed.

(** [trimQuotes] removes exactly one pair of surrounding double quotes: a
    string of the form quote, [m], quote becomes [m] (whatever [m] is, the
    empty string and strings with quotes inside included), and every other
    string, such as a lone quote or a string quoted at one end only, is
    returned unchanged. *)
Theorem trimQuotes_strips_exactly_one_pair :
  (forall m, trimQuotes (String double_quote (m +:+ String double_quote "")) = m) /\
  (forall s, (forall m, s <> String double_quote (m +:+ String double_quote "")) ->
             trimQuotes s = s).
Proof.
  split.
  - intros m. unfold trimQuotes. simpl.
    rewrite length_app_string. simpl.
    replace (String.length m + 1 - 0)%nat with (S (String.length m)) by lia.
    replace (String.length m + 1 - 1)%nat with (String.length m) by lia.
    simpl. rewrite get_app_length.
    rewrite !bool_decide_eq_true_2 by done.
    replace (String.length m + 1)%nat with (S (String.length m)) by lia.
    simpl. apply substring_prefix.
  - intros s Hno. unfold trimQuotes.
    destruct (2 <=? String.length s)%nat eqn:Hlen; [|done].
    destruct (bool_decide (String.get 0 s = Some double_quote)) eqn:H0; [|done].
    destruct (bool_decide (String.get (String.length s - 1) s = Some double_quote))
      eqn:H1; [|done].
    simpl. apply Nat.leb_le in Hlen.
    apply bool_decide_eq_true_1 in H0. apply bool_decide_eq_true_1 in H1.
    destruct (Hno _ (quoted_inv s Hlen H0 H1)).
Qed.

(** ** Calls through the session's client *)

Section CallerLemmas.
Context `{GoRuntime}.

(** [Do] on a client with a transport returns, changes no client, and
    returns an error whenever it returns no response. *)
Lemma Do_returns (cs : Clients) (c : loc) (v : ClientT)
    (ctx : context_Context) (req : Request.t any) :
  cs !! c = Some v ->
  is_Some (Client.httpClient v) ->
  exists resp err,
    Client_Do (Some c) ctx req cs = Some ((resp, err), cs) /\
    (resp = None -> is_Some err).
Proof.
  intros Hc [hc Hhc]. unfold Client_Do. unfold_M. rewrite Hc.
  destruct (Client_Do_request v ctx req) as [httpReq|err].
  - rewrite Hhc. destruct (Client_Do_response hc httpReq) as [resp err] eqn:Hresp.
    exists resp, err. split; [done|]. intros ->.
    unfold Client_Do_response in Hresp.
    destruct (http_Client_Do hc httpReq); [|by injection Hresp as <-].
    destruct (io_ReadAll _); [|by injection Hresp as <-].
    by destruct (400 <=? _)%Z.
  - eexists _, _. split; [reflexivity|]. eauto.
Qed.

Lemma on_clients_Do (h : HeapT) (c : loc) (v : ClientT)
    (ctx : context_Context) (req : Request.t any) :
  Heap.clients h !! c = Some v ->
  is_Some (Client.httpClient v) ->
  exists resp err,
    on_clients (Client_Do (Some c) ctx req) h = Some ((resp, err), h) /\
    (resp = None -> is_Some err).
Proof.
  intros Hc Hhc.
  destruct (Do_returns (Heap.clients h) c v ctx req Hc Hhc) as (resp & err & Hdo & Hshape).
  exists resp, err. unfold on_clients. rewrite Hdo. by destruct h.
Qed.

(** [NewSession] with a non-empty base URI, with the transport of the new
    client: the default [http.Client] with the timeout of 30 seconds. *)
Lemma NewSession_run_transport (h : HeapT) (baseURI : string) (now : time_Time) :
  baseURI <> "" ->
  exists s c cv v,
    NewSession baseURI now h =
      Some ((Some s, None),
            Heap.mk (<[c := cv]> (Heap.clients h)) (<[s := v]> (Heap.sessions h))) /\
    Heap.sessions h !! s = None /\
    v = Session.mk (Some c) baseURI (Client.apiURL cv) "" "" now "" 0 None 0
                   false "" "" false /\
    cv = Client.mk (Some (http_Client.mk (30 * time_Second) None))
                   (strings_TrimSuffix baseURI "/")
                   (strings_TrimSuffix baseURI "/" +:+ "/PasswordVault/API")
                   "" "application/json" (30 * time_Second).
Proof.
  intros Hne%string_eqb_empty.
  eexists (fresh (dom (Heap.sessions h))), (fresh (dom (Heap.clients h))), _, _.
  unfold NewSession, NewClient, Client_GetAPIURL. simpl. rewrite Hne.
  unfold_M. simpl. rewrite lookup_insert_eq. simpl.
  split; [reflexivity|]. split; [apply fresh_unallocated|]. done.
Qed.
End CallerLemmas.

(** ** authentication *)

Section AuthenticationProps.
Context `{AuthRuntime}.

(** [GetServerInfo] on a session whose client has a transport returns,
    changes nothing, and returns either the information and a nil error or
    no information and an error. Its errors are wrapped, so [IsAPIError]
    does not recognise them, not even when the server answered with a
    status of 400 or more; and with a nil session it returns the error
    [session is required]. *)
Theorem GetServerInfo_returns_info_or_wrapped_error
    (h : HeapT) (ctx : context_Context) (s c : loc) (v : Session.t) (cv : ClientT) :
  Heap.sessions h !! s = Some v ->
  Session.Client v = Some c ->
  Heap.clients h !! c = Some cv ->
  is_Some (Client.httpClient cv) ->
  (exists info err,
     GetServerInfo ctx (Some s) h = Some ((info, err), h) /\
     (is_Some info <-> err = None) /\
     IsAPIError err = false) /\
  GetServerInfo ctx None h = Some ((None, Some (errorString "session is required")), h).
Proof.
  intros Hs Hc Hcv Hhc. split; [|done].
  unfold GetServerInfo, Client_Get. unfold bind at 1. unfold on_sessions, load.
  rewrite Hs. unfold bind at 1.
  replace (Heap.mk (Heap.clients h) (Heap.sessions h)) with h by by destruct h.
  rewrite Hc.
  destruct (on_clients_Do h c cv ctx
              (Request.mk "GET" "/WebServices/PIMServices.svc/Server" None ∅ [])
              Hcv Hhc) as (resp & err & -> & Hshape).
  destruct err as [err|].
  - exists None, (Some (wrapError "failed to get server info: " err)).
    split; [by destruct resp|]. split; [|done].
    split; [by intros [? [=]]|done].
  - destruct resp as [resp|]; [|by destruct (Hshape eq_refl)].
    destruct (json_Unmarshal_ServerInfo _ _) as [info [err|]].
    + eexists _, _. split; [reflexivity|]. split; [|done].
      split; [by intros [? [=]]|done].
    + eexists _, _. split; [reflexivity|]. split; [|done]. split; eauto.
Qed.

(** [fetchServerVersion] returns and either changes nothing or is one call
    of [SetVersion]. *)
Lemma fetchServerVersion_effect
    (h : HeapT) (ctx : context_Context) (s c : loc) (v : Session.t) (cv : ClientT) :
  Heap.sessions h !! s = Some v ->
  Session.Client v = Some c ->
  Heap.clients h !! c = Some cv ->
  is_Some (Client.httpClient cv) ->
  exists err h',
    fetchServerVersion ctx (Some s) h = Some (err, h') /\
    (h' = h \/ exists version, call (Some s) (SetVersion version) h = Some (tt, h')).
Proof.
  intros Hs Hc Hcv Hhc. unfold fetchServerVersion. unfold bind at 1.
  unfold GetServerInfo, Client_Get. unfold bind at 1. unfold on_sessions at 1, load.
  rewrite Hs. unfold bind at 1.
  replace (Heap.mk (Heap.clients h) (Heap.sessions h)) with h by by destruct h.
  rewrite Hc.
  destruct (on_clients_Do h c cv ctx
              (Request.mk "GET" "/WebServices/PIMServices.svc/Server" None ∅ [])
              Hcv Hhc) as (resp & err & -> & Hshape).
  destruct err as [err|].
  - exists (Some (wrapError "failed to get server info: " err)), h.
    split; [by destruct resp|]. by left.
  - destruct resp as [resp|]; [|by destruct (Hshape eq_refl)].
    destruct (json_Unmarshal_ServerInfo _ _) as [info [err|]].
    + eexists _, _. split; [reflexivity|]. by left.
    + unfold ret at 1.
      destruct (call_effect h s c (SetVersion (ServerInfo.ExternalVersion info)) v cv
                  Hs Hc Hcv) as (h' & _ & _ & Hcall & _).
      simpl in Hcall. exists None, h'. unfold bind. rewrite Hcall.
      split; [done|]. right. by exists (ServerInfo.ExternalVersion info).
Qed.

(** [NewSession] checks its options before it does anything: an empty base
    URL, then an empty user name, then an empty password are each answered
    with their own error and no session, and nothing is allocated. *)
Theorem authentication_NewSession_rejects_missing_options
    (h : HeapT) (ctx : context_Context)
    (opts : SessionOptions.t http_RoundTripper) (now : time_Time) :
  let user := Credentials.Username (SessionOptions.Credentials opts) in
  let password := Credentials.Password (SessionOptions.Credentials opts) in
  (SessionOptions.BaseURL opts = "" ->
   authentication_NewSession ctx opts now h
     = Some ((None, Some (errorString "baseURL is required")), h)) /\
  (SessionOptions.BaseURL opts <> "" -> user = "" ->
   authentication_NewSession ctx opts now h
     = Some ((None, Some (errorString "username is required")), h)) /\
  (SessionOptions.BaseURL opts <> "" -> user <> "" -> password = "" ->
   authentication_NewSession ctx opts now h
     = Some ((None, Some (errorString "password is required")), h)).
Proof.
  intros user password. unfold authentication_NewSession. fold user. fold password.
  split; [|split].
  - by intros ->.
  - intros Hb%string_eqb_empty ->. by rewrite Hb.
  - intros Hb%string_eqb_empty Hu%string_eqb_empty ->. by rewrite Hb, Hu.
Qed.

(** The token [NewSession] takes from the body of the login response: the
    decoded token, or the body without its surrounding quotes when the body
    does not decode. *)
Lemma login_token_nonempty (token user authMethod : string) (ctx : context_Context)
    (skip : bool) (h : HeapT) (s c : loc) (v : Session.t) (cv : ClientT) :
  token <> "" ->
  Heap.sessions h !! s = Some v ->
  Session.Client v = Some c ->
  Heap.clients h !! c = Some cv ->
  is_Some (Client.httpClient cv) ->
  exists h' v',
    (Session_SetAuthenticated (Some s) user token authMethod ;;;
     (if negb skip then fetchServerVersion ctx (Some s) ;;; ret tt else ret tt) ;;;
     ret (Some s, @None error)) h = Some ((Some s, None), h') /\
    Heap.sessions h' !! s = Some v' /\
    Session_IsValid (Some s) h' = Some (true, h') /\
    Session.User v' = user /\
    Session.SessionToken v' = token /\
    Session.AuthMethod v' = authMethod /\
    Session.BaseURI v' = Session.BaseURI v /\
    Session.Client v' = Some c /\
    on_clients (Client_GetAuthToken (Some c)) h' = Some (token, h') /\
    (skip = true -> Session.ExternalVersion v' = Session.ExternalVersion v).
Proof.
  intros Htok Hs Hc Hcv Hhc.
  pose proof (SetAuthenticated_run h s c v cv user token authMethod Hs Hc Hcv) as Hset.
  set (v2 := Session.mk _ _ _ _ _ _ _ _ _ _ _ _ _ _) in Hset.
  set (h2 := Heap.mk _ _) in Hset.
  assert (Heap.sessions h2 !! s = Some v2) as Hs2 by (simpl; apply lookup_insert_eq).
  assert (Heap.clients h2 !! c = Some (set_authToken cv token)) as Hcv2
    by (simpl; apply lookup_insert_eq).
  assert (forall h' v',
            Heap.sessions h' !! s = Some v' ->
            Heap.clients h' !! c = Some (set_authToken cv token) ->
            Session.User v' = user -> Session.SessionToken v' = token ->
            Session.IsAuthenticated v' = true ->
            Session_IsValid (Some s) h' = Some (true, h') /\
            on_clients (Client_GetAuthToken (Some c)) h' = Some (token, h')) as Hfinal.
  { intros h' v' Hs' Hcv' _ Ht' Ha'. split.
    - rewrite (IsValid_run h' s v' Hs'), Ha', Ht'.
      apply string_eqb_empty in Htok. by rewrite Htok.
    - unfold Client_GetAuthToken. unfold_M. rewrite Hcv'. by destruct h'. }
  unfold bind at 1. rewrite Hset.
  destruct skip; simpl.
  - unfold bind, ret. exists h2, v2.
    destruct (Hfinal h2 v2) as [? ?]; done.
  - destruct (fetchServerVersion_effect h2 ctx s c v2 (set_authToken cv token))
      as (err & h3 & Hfetch & Heff); [done..|].
    unfold bind at 1. unfold bind at 1. rewrite Hfetch. unfold ret.
    destruct Heff as [->|[version Hcall]].
    + exists h2, v2. destruct (Hfinal h2 v2) as [? ?]; done.
    + destruct (call_effect h2 s c (SetVersion version) v2 (set_authToken cv token))
        as (h3' & v3 & cv3 & Hcall' & Hs3 & Hcv3 & Hc3 & Hb3 & _ & _ & Hframe & _);
        [done..|].
      rewrite Hcall in Hcall'. injection Hcall' as <-.
      destruct (Hframe eq_refl) as (Hu & Ht & Hm & Ha & Hcs).
      unfold v2 in Hu, Ht, Hm, Ha, Hb3, Hc3; simpl in Hu, Ht, Hm, Ha, Hb3, Hc3.
      exists h3, v3.
      assert (Heap.clients h3 !! c = Some (set_authToken cv token)) as Hcv3'
        by (by rewrite Hcs).
      destruct (Hfinal h3 v3) as [? ?]; [done|done|congruence..|].
      repeat split; done || congruence.
Qed.


(** [Do] on a stored client, once the transport has answered with a status
    below 400 and the body has been read. *)
Lemma on_clients_Do_success (h : HeapT) (c : loc) (cv : ClientT)
    (hc : http_Client.t http_RoundTripper)
    (ctx : context_Context) (req : Request.t any)
    (httpReq : http_Request.t context_Context)
    (httpResp : http_Response.t io_ReadCloser) (respBody : list byte) :
  Heap.clients h !! c = Some cv ->
  Client.httpClient cv = Some hc ->
  Client_Do_request cv ctx req = inl httpReq ->
  http_Client_Do hc httpReq = inl httpResp ->
  io_ReadAll (http_Response.Body httpResp) = inl respBody ->
  on_clients (Client_Do (Some c) ctx req) h =
    Some ((Some (Response.mk (http_Response.StatusCode httpResp) respBody
                             (http_Response.Header httpResp)),
           if (400 <=? http_Response.StatusCode httpResp)%Z
           then Some (parseAPIError
                        (Response.mk (http_Response.StatusCode httpResp) respBody
                                     (http_Response.Header httpResp)))
           else None), h).
Proof.
  intros Hc Hhc Hreq Hdo Hread. unfold on_clients, Client_Do. unfold_M.
  rewrite Hc, Hreq, Hhc.
  rewrite (Do_response_read hc httpReq httpResp respBody Hdo Hread).
  by destruct h.
Qed.

(** How [NewSession] reads the login response. Let the options be complete
    and let the server answer the login request with a status below 400 and
    the body [body]. If [body] decodes as a login response, the session
    token is the decoded token; if it does not decode, the session token is
    [body] as a string without one pair of surrounding quotes; and if the
    token so obtained is empty, [NewSession] returns the error [no
    authentication token received] and no session. *)
Theorem authentication_NewSession_token_from_login_response
    (h : HeapT) (ctx : context_Context)
    (opts : SessionOptions.t http_RoundTripper) (now : time_Time)
    (httpReq : http_Request.t context_Context)
    (httpResp : http_Response.t io_ReadCloser) (body : list byte) :
  let user := Credentials.Username (SessionOptions.Credentials opts) in
  let password := Credentials.Password (SessionOptions.Credentials opts) in
  let method := if String.eqb (SessionOptions.AuthMethod opts) "" then "CyberArk"
                else SessionOptions.AuthMethod opts in
  let transport := http_Client.mk (30 * time_Second) None in
  let base := strings_TrimSuffix (SessionOptions.BaseURL opts) "/" in
  let client := Client.mk (Some transport) base (base +:+ "/PasswordVault/API")
                          "" "application/json" (30 * time_Second) in
  let login := Request.mk "POST" (getAuthPath method)
                 (Some (LoginRequest_any
                          (LoginRequest.mk user password
                             (SessionOptions.ConcurrentSession opts))))
                 ∅ [] in
  SessionOptions.BaseURL opts <> "" -> user <> "" -> password <> "" ->
  Client_Do_request client ctx login = inl httpReq ->
  http_Client_Do transport httpReq = inl httpResp ->
  io_ReadAll (http_Response.Body httpResp) = inl body ->
  (http_Response.StatusCode httpResp < 400)%Z ->
  forall token,
    token = match json_Unmarshal_LoginResponse body (LoginResponse.mk "") with
            | (_, Some _) => trimQuotes (String.string_of_list_byte body)
            | (decoded, None) => LoginResponse.Token decoded
            end ->
    exists r h',
      authentication_NewSession ctx opts now h = Some (r, h') /\
      (token = "" ->
       r = (None, Some (errorString "no authentication token received"))) /\
      (token <> "" ->
       exists s v, r = (Some s, None) /\
                   Heap.sessions h' !! s = Some v /\
                   Session.SessionToken v = token /\
                   Session.User v = user /\
                   Session.AuthMethod v = method).
Proof.
  intros user password method transport base client login.
  intros Hb Hu Hp Hreq Hdo Hread Hstatus token Htoken.
  unfold authentication_NewSession. fold user. fold password.
  apply string_eqb_empty in Hu, Hp. pose proof Hb as Hb'%string_eqb_empty.
  rewrite Hb', Hu, Hp.
  destruct (NewSession_run_transport h _ now Hb)
    as (s & c & cv & v & Hnew & Hfresh & Hv & Hcv).
  fold base in Hcv. fold transport in Hcv. fold client in Hcv. subst cv.
  set (h1 := Heap.mk _ _) in Hnew.
  unfold bind at 1. rewrite Hnew.
  unfold bind at 1. unfold on_sessions at 1, load.
  assert (Heap.sessions h1 !! s = Some v) as Hs1 by (simpl; apply lookup_insert_eq).
  assert (Heap.clients h1 !! c = Some client) as Hc1 by (simpl; apply lookup_insert_eq).
  rewrite Hs1.
  replace (Heap.mk (Heap.clients h1) (Heap.sessions h1)) with h1 by done.
  assert (Session.Client v = Some c) as Hcl by (by rewrite Hv).
  rewrite Hcl. unfold Client_Post. unfold bind at 1.
  change (if String.eqb (SessionOptions.AuthMethod opts) "" then AuthMethodCyberArk
          else SessionOptions.AuthMethod opts) with method.
  fold login.
  rewrite (on_clients_Do_success h1 c client transport ctx login httpReq httpResp body)
    by done.
  apply Z.leb_gt in Hstatus. rewrite Hstatus. simpl Response.Body.
  set (tok := LoginResponse.Token _).
  assert (tok = token) as ->.
  { subst tok token. cbn [Response.Body].
    by destruct (json_Unmarshal_LoginResponse body _) as [decoded [e|]]. }
  clear Htoken.
  destruct (String.eqb token "") eqn:Htok.
  - apply String.eqb_eq in Htok. eexists _, _. split; [reflexivity|].
    split; [done|]. by intros [].
  - apply string_eqb_empty in Htok.
    destruct (login_token_nonempty token user method ctx
                (SessionOptions.SkipVersionCheck opts) h1 s c v client)
      as (h' & v' & Hrun & Hs' & _ & Huser & Htok' & Hmethod & _);
      [done..|by eexists|].
    exists (Some s, None), h'. split; [exact Hrun|]. split; [done|].
    intros _. by exists s, v'.
Qed.

(** [CloseSession] with a nil session, or with a session that is not
    valid, returns nil and does nothing: no request is made and nothing
    changes. *)
Theorem CloseSession_without_valid_session_does_nothing
    (h : HeapT) (ctx : context_Context) :
  authentication_CloseSession ctx None h = Some (None, h) /\
  (forall s v,
     Heap.sessions h !! s = Some v ->
     Session.IsAuthenticated v = false \/ Session.SessionToken v = "" ->
     authentication_CloseSession ctx (Some s) h = Some (None, h)).
Proof.
  split; [done|]. intros s v Hs Hinvalid.
  unfold authentication_CloseSession. unfold bind at 1.
  rewrite (IsValid_run h s v Hs).
  assert (Session.IsAuthenticated v && negb (String.eqb (Session.SessionToken v) "")
          = false) as ->; [|done].
  destruct Hinvalid as [->| ->]; [done|]. by rewrite andb_false_r.
Qed.

(** The start of [CloseSession] on a valid session: the log-off request is
    what decides. *)
Lemma CloseSession_valid (h : HeapT) (ctx : context_Context) (s c : loc)
    (v : Session.t) (resp : option Response.t) (err : option error) :
  Heap.sessions h !! s = Some v ->
  Session.Client v = Some c ->
  Session.IsAuthenticated v = true ->
  Session.SessionToken v <> "" ->
  on_clients (Client_Do (Some c) ctx (Request.mk "POST" "/Auth/Logoff" None ∅ [])) h
    = Some ((resp, err), h) ->
  authentication_CloseSession ctx (Some s) h =
    match err with
    | Some e =>
        if (let (apiErr, ok) := AsAPIError (Some e) in
            ok && from_option APIError_IsUnauthorized false apiErr)
        then (Session_Close (Some s) ;;; ret None) h
        else Some (Some (wrapError "failed to close session: " e), h)
    | None => (Session_Close (Some s) ;;; ret None) h
    end.
Proof.
  intros Hs Hc Hauth Htok%string_eqb_empty Hdo.
  unfold authentication_CloseSession. unfold bind at 1.
  rewrite (IsValid_run h s v Hs), Hauth, Htok. simpl.
  unfold bind at 1. unfold on_sessions at 1, load. rewrite Hs.
  replace (Heap.mk (Heap.clients h) (Heap.sessions h)) with h by by destruct h.
  rewrite Hc. unfold Client_Post. unfold bind at 1. rewrite Hdo. simpl.
  destruct err as [[msg|msg inner|e]|]; try done.
  simpl. by destruct (APIError_IsUnauthorized e).
Qed.

Lemma Close_then_nil (h : HeapT) (s : loc) (v : Session.t) :
  Heap.sessions h !! s = Some v ->
  exists h' v',
    (Session_Close (Some s) ;;; ret (@None error)) h = Some (None, h') /\
    Heap.sessions h' !! s = Some v' /\
    Session.SessionToken v' = "" /\
    Session_IsValid (Some s) h' = Some (false, h') /\
    Heap.clients h' = Heap.clients h.
Proof.
  intros Hs. unfold bind. rewrite (Close_run h s v Hs).
  eexists _, _. split; [reflexivity|]. simpl. rewrite lookup_insert_eq.
  split; [done|]. split; [done|]. split; [|done].
  by erewrite IsValid_run by (simpl; apply lookup_insert_eq).
Qed.

(** [CloseSession] on a valid session whose client has a transport
    returns, and either returns nil with the session closed ([IsValid]
    false, token empty, every client as it was), or returns an error that
    wraps the error of the log-off request with nothing changed, the
    session still valid. *)
Theorem CloseSession_closes_or_changes_nothing
    (h : HeapT) (ctx : context_Context) (s c : loc) (v : Session.t) (cv : ClientT) :
  Heap.sessions h !! s = Some v ->
  Session.Client v = Some c ->
  Heap.clients h !! c = Some cv ->
  is_Some (Client.httpClient cv) ->
  Session.IsAuthenticated v = true ->
  Session.SessionToken v <> "" ->
  exists r h',
    authentication_CloseSession ctx (Some s) h = Some (r, h') /\
    ((r = None /\
      Session_IsValid (Some s) h' = Some (false, h') /\
      Heap.clients h' = Heap.clients h /\
      exists v', Heap.sessions h' !! s = Some v' /\ Session.SessionToken v' = "") \/
     (exists err, r = Some (wrapError "failed to close session: " err) /\ h' = h)).
Proof.
  intros Hs Hc Hcv Hhc Hauth Htok.
  destruct (on_clients_Do h c cv ctx (Request.mk "POST" "/Auth/Logoff" None ∅ [])
              Hcv Hhc) as (resp & err & Hdo & _).
  rewrite (CloseSession_valid h ctx s c v resp err) by done.
  destruct (Close_then_nil h s v Hs) as (h' & v' & Hclose & Hs' & Htok' & Hvalid & Hcs).
  assert (exists r h',
            (Session_Close (Some s) ;;; ret (@None error)) h = Some (r, h') /\
            ((r = None /\
              Session_IsValid (Some s) h' = Some (false, h') /\
              Heap.clients h' = Heap.clients h /\
              exists v', Heap.sessions h' !! s = Some v' /\ Session.SessionToken v' = "") \/
             (exists err, r = Some (wrapError "failed to close session: " err) /\ h' = h)))
    as Hclosed.
  { exists None, h'. split; [done|]. left. eauto 10. }
  destruct err as [e|]; [|exact Hclosed].
  match goal with
  | |- context [if ?b then _ else _] => destruct b; [exact Hclosed|]
  end.
  eexists _, _. split; [reflexivity|]. right. eauto.
Qed.

(** [CloseSession] on a valid session, by the status with which the server
    answers the log-off request: below 400, or 401 (already logged out),
    it returns nil and the session is closed; 400 or more but not 401, it
    returns the API error, wrapped, and the session stays as it was. *)
Theorem CloseSession_outcome_by_status
    (h : HeapT) (ctx : context_Context) (s c : loc) (v : Session.t) (cv : ClientT)
    (hc : http_Client.t http_RoundTripper)
    (httpReq : http_Request.t context_Context)
    (httpResp : http_Response.t io_ReadCloser) (body : list byte) :
  Heap.sessions h !! s = Some v ->
  Session.Client v = Some c ->
  Heap.clients h !! c = Some cv ->
  Session.IsAuthenticated v = true ->
  Session.SessionToken v <> "" ->
  Client.httpClient cv = Some hc ->
  Client_Do_request cv ctx (Request.mk "POST" "/Auth/Logoff" None ∅ []) = inl httpReq ->
  http_Client_Do hc httpReq = inl httpResp ->
  io_ReadAll (http_Response.Body httpResp) = inl body ->
  let status := http_Response.StatusCode httpResp in
  ((status < 400 \/ status = 401)%Z ->
   exists h', authentication_CloseSession ctx (Some s) h = Some (None, h') /\
              Session_IsValid (Some s) h' = Some (false, h')) /\
  ((400 <= status /\ status <> 401)%Z ->
   exists e, authentication_CloseSession ctx (Some s) h
               = Some (Some (wrapError "failed to close session: " (apiError e)), h) /\
             APIError.StatusCode e = status).
Proof.
  intros Hs Hc Hcv Hauth Htok Hhc Hreq Hdo Hread status.
  pose proof (on_clients_Do_success h c cv hc ctx _ httpReq httpResp body
                Hcv Hhc Hreq Hdo Hread) as Hpost.
  fold status in Hpost.
  rewrite (CloseSession_valid h ctx s c v _ _ Hs Hc Hauth Htok Hpost).
  destruct (Close_then_nil h s v Hs) as (h' & v' & Hclose & _ & _ & Hvalid & _).
  destruct (parseAPIError_status (Response.mk status body (http_Response.Header httpResp)))
    as (e & He & Hstatus).
  simpl in Hstatus. rewrite He.
  destruct (Z.leb_spec 400 status) as [Hge|Hlt].
  - simpl. unfold APIError_IsUnauthorized. rewrite Hstatus.
    destruct (Z.eqb_spec status 401) as [H401|Hne].
    + split; [|lia]. intros _. by exists h'.
    + split; [lia|]. intros _. by exists e.
  - split; [|lia]. intros _. by exists h'.
Qed.
End AuthenticationProps.

(** ** accounts *)

Section AccountsProps.
Context `{GoRuntime}.

(** [Delete] on a session whose client has a transport returns and changes
    nothing. Without a valid session it returns [valid session is
    required], and with a valid session and an empty account id [accountID
    is required], in both cases whatever the server would answer. Every
    error it returns is wrapped or its own, so [IsAPIError] recognises
    none of them, not even when the server answered with a status of 400
    or more. *)
Theorem accounts_Delete_errors
    (h : HeapT) (ctx : context_Context) (s c : loc) (v : Session.t) (cv : ClientT)
    (accountID : string) :
  Heap.sessions h !! s = Some v ->
  Session.Client v = Some c ->
  Heap.clients h !! c = Some cv ->
  is_Some (Client.httpClient cv) ->
  let valid := Session.IsAuthenticated v && negb (String.eqb (Session.SessionToken v) "") in
  exists err,
    accounts_Delete ctx (Some s) accountID h = Some (err, h) /\
    IsAPIError err = false /\
    (valid = false -> err = Some (errorString "valid session is required")) /\
    (valid = true -> accountID = "" ->
     err = Some (errorString "accountID is required")) /\
    accounts_Delete ctx None accountID h
      = Some (Some (errorString "valid session is required"), h).
Proof.
  intros Hs Hc Hcv Hhc valid.
  unfold accounts_Delete. unfold bind at 1. unfold bind at 1.
  rewrite (IsValid_run h s v Hs). fold valid. unfold ret at 1. unfold ret at 1.
  destruct valid; simpl.
  2:{ eexists. split; [reflexivity|]. by repeat split. }
  destruct (String.eqb accountID "") eqn:Hid.
  { eexists. split; [reflexivity|]. by repeat split. }
  unfold bind at 1. unfold on_sessions at 1, load. rewrite Hs.
  replace (Heap.mk (Heap.clients h) (Heap.sessions h)) with h by by destruct h.
  rewrite Hc. unfold Client_Delete. unfold bind at 1.
  destruct (on_clients_Do h c cv ctx
              (Request.mk "DELETE" ("/Accounts/" +:+ accountID) None ∅ []) Hcv Hhc)
    as (resp & err & -> & _).
  apply String.eqb_neq in Hid.
  destruct err as [err|]; simpl; (eexists; split; [reflexivity|]; by repeat split).
Qed.
End AccountsProps.

(** * Properties of the helpers *)

(** ** The order on versions *)

Lemma Version_eq (v w : Version.t) :
  Version.Major v = Version.Major w ->
  Version.Minor v = Version.Minor w ->
  Version.Patch v = Version.Patch w ->
  v = w.
Proof. destruct v, w; simpl; congruence. Qed.

(** [Compare] is the lexicographic order by major, minor and patch: it
    returns -1 exactly when the first version is below the second, 1
    exactly when it is above, 0 exactly when the two are the same version,
    and swapping the arguments negates the result. *)
Theorem Version_Compare_is_lexicographic (v w : Version.t) :
  (Version_Compare v w = -1 <-> version_lt v w) /\
  (Version_Compare v w = 1 <-> version_lt w v) /\
  (Version_Compare v w = 0 <-> v = w) /\
  Version_Compare w v = (- Version_Compare v w)%Z.
Proof.
  unfold Version_Compare, version_lt.
  destruct (Z.eqb_spec (Version.Major v) (Version.Major w)) as [EM|NM],
           (Z.eqb_spec (Version.Major w) (Version.Major v)) as [EM'|NM'];
    try congruence; simpl.
  - destruct (Z.eqb_spec (Version.Minor v) (Version.Minor w)) as [Em|Nm],
             (Z.eqb_spec (Version.Minor w) (Version.Minor v)) as [Em'|Nm'];
      try congruence; simpl.
    + destruct (Z.eqb_spec (Version.Patch v) (Version.Patch w)) as [Ep|Np],
               (Z.eqb_spec (Version.Patch w) (Version.Patch v)) as [Ep'|Np'];
        try congruence; simpl.
      * repeat split; try lia. intros _. by apply Version_eq.
      * destruct (Z.ltb_spec (Version.Patch v) (Version.Patch w)),
                 (Z.ltb_spec (Version.Patch w) (Version.Patch v));
          repeat split; try lia; intros ->; lia.
    + destruct (Z.ltb_spec (Version.Minor v) (Version.Minor w)),
               (Z.ltb_spec (Version.Minor w) (Version.Minor v));
        repeat split; try lia; intros ->; lia.
  - destruct (Z.ltb_spec (Version.Major v) (Version.Major w)),
             (Z.ltb_spec (Version.Major w) (Version.Major v));
      repeat split; try lia; intros ->; lia.
Qed.

Lemma Version_Compare_cases (v w : Version.t) :
  (Version_Compare v w = -1 /\ version_lt v w) \/
  (Version_Compare v w = 0 /\ v = w) \/
  (Version_Compare v w = 1 /\ version_lt w v).
Proof.
  unfold Version_Compare, version_lt.
  destruct (Z.eqb_spec (Version.Major v) (Version.Major w)); simpl;
    [|destruct (Z.ltb_spec (Version.Major v) (Version.Major w)); [left|right; right]; lia].
  destruct (Z.eqb_spec (Version.Minor v) (Version.Minor w)); simpl;
    [|destruct (Z.ltb_spec (Version.Minor v) (Version.Minor w)); [left|right; right]; lia].
  destruct (Z.eqb_spec (Version.Patch v) (Version.Patch w)); simpl;
    [|destruct (Z.ltb_spec (Version.Patch v) (Version.Patch w)); [left|right; right]; lia].
  right; left. split; [done|]. by apply Version_eq.
Qed.

Lemma version_lt_trans (a b c : Version.t) :
  version_lt a b -> version_lt b c -> version_lt a c.
Proof. unfold version_lt. lia. Qed.

Lemma version_lt_irrefl (a : Version.t) : ~ version_lt a a.
Proof. unfold version_lt. lia. Qed.

(** [GreaterThanOrEqual] is a total order on versions, and [LessThan] is
    its complement: it is reflexive, transitive and antisymmetric, any two
    versions are comparable, and [LessThan v w] holds exactly when
    [GreaterThanOrEqual v w] does not. *)
Theorem Version_GreaterThanOrEqual_is_a_total_order (a b c : Version.t) :
  Version_GreaterThanOrEqual a a = true /\
  (Version_GreaterThanOrEqual a b = true -> Version_GreaterThanOrEqual b c = true ->
   Version_GreaterThanOrEqual a c = true) /\
  (Version_GreaterThanOrEqual a b = true -> Version_GreaterThanOrEqual b a = true ->
   a = b) /\
  (Version_GreaterThanOrEqual a b = true \/ Version_GreaterThanOrEqual b a = true) /\
  Version_LessThan a b = negb (Version_GreaterThanOrEqual a b).
Proof.
  unfold Version_GreaterThanOrEqual, Version_LessThan.
  rewrite !Z.leb_le.
  pose proof (version_lt_irrefl a) as Ha.
  destruct (Version_Compare_cases a a) as [[? ?]|[[-> _]|[? ?]]]; try done.
  split; [lia|]. split; [|split; [|split]].
  - destruct (Version_Compare_cases a b) as [[? ?]|[[_ ->]|[_ Hab]]]; [lia|done|].
    destruct (Version_Compare_cases b c) as [[? ?]|[[_ ->]|[_ Hbc]]]; [lia| |].
    + destruct (Version_Compare_cases a c) as [[? Hac]|[[-> _]|[-> _]]]; [|lia..].
      destruct (version_lt_irrefl _ (version_lt_trans _ _ _ Hab Hac)).
    + pose proof (version_lt_trans _ _ _ Hbc Hab) as Hca.
      destruct (Version_Compare_cases a c) as [[? Hac]|[[_ ->]|[-> _]]]; [| |lia].
      * destruct (version_lt_irrefl _ (version_lt_trans _ _ _ Hca Hac)).
      * destruct (version_lt_irrefl _ Hca).
  - destruct (Version_Compare_cases a b) as [[? ?]|[[_ ->]|[_ Hab]]]; [lia|done|].
    destruct (Version_Compare_cases b a) as [[? ?]|[[_ ->]|[_ Hba]]]; [lia|done|].
    destruct (version_lt_irrefl _ (version_lt_trans _ _ _ Hab Hba)).
  - destruct (Version_Compare_cases a b) as [[_ Hab]|[[-> _]|[-> _]]]; [|lia..].
    destruct (Version_Compare_cases b a) as [[_ Hba]|[[-> _]|[-> _]]]; [|lia..].
    destruct (version_lt_irrefl _ (version_lt_trans _ _ _ Hab Hba)).
  - destruct (Version_Compare_cases a b) as [[-> _]|[[-> _]|[-> _]]]; done.
Qed.

(** A version satisfies a requirement exactly when it is not below the
    minimum, if there is one, and not above the maximum, if there is one;
    both bounds are inclusive, and a requirement without bounds is
    satisfied by every version. *)
Theorem IsSatisfied_iff_within_bounds (r : VersionRequirement.t) (v : Version.t) :
  VersionRequirement_IsSatisfied r v = true <->
  (forall min, VersionRequirement.MinVersion r = Some min -> ~ version_lt v min) /\
  (forall max, VersionRequirement.MaxVersion r = Some max -> ~ version_lt max v).
Proof.
  unfold VersionRequirement_IsSatisfied, Version_LessThan.
  destruct r as [[min|] [max|]]; simpl.
  - destruct (Version_Compare_cases v min) as [[-> Hlt]|[[-> ->]|[-> Hgt]]]; simpl.
    + split; [done|]. intros [Hmin _]. by destruct (Hmin min).
    + destruct (Version_Compare_cases min max) as [[-> Hlt]|[[-> ->]|[-> Hgt]]]; simpl.
      * split; [|done]. intros _. split; intros ? [= <-]; [apply version_lt_irrefl|].
        intros H. destruct (version_lt_irrefl _ (version_lt_trans _ _ _ Hlt H)).
      * split; [|done]. intros _. split; intros ? [= <-]; apply version_lt_irrefl.
      * split; [done|]. intros [_ Hmax]. by destruct (Hmax max).
    + destruct (Version_Compare_cases v max) as [[-> Hlt]|[[-> ->]|[-> Hgt']]]; simpl.
      * split; [|done]. intros _. split; intros ? [= <-]; intros H.
        -- destruct (version_lt_irrefl _ (version_lt_trans _ _ _ Hgt H)).
        -- destruct (version_lt_irrefl _ (version_lt_trans _ _ _ Hlt H)).
      * split; [|done]. intros _. split; intros ? [= <-]; [|apply version_lt_irrefl].
        intros H. destruct (version_lt_irrefl _ (version_lt_trans _ _ _ Hgt H)).
      * split; [done|]. intros [_ Hmax]. by destruct (Hmax max).
  - destruct (Version_Compare_cases v min) as [[-> Hlt]|[[-> ->]|[-> Hgt]]]; simpl.
    + split; [done|]. intros [Hmin _]. by destruct (Hmin min).
    + split; [|done]. intros _. split; intros ? [= <-]. apply version_lt_irrefl.
    + split; [|done]. intros _. split; intros ? [= <-]. intros H.
      destruct (version_lt_irrefl _ (version_lt_trans _ _ _ Hgt H)).
  - destruct (Version_Compare_cases v max) as [[-> Hlt]|[[-> ->]|[-> Hgt]]]; simpl.
    + split; [|done]. intros _. split; intros ? [= <-]. intros H.
      destruct (version_lt_irrefl _ (version_lt_trans _ _ _ Hlt H)).
    + split; [|done]. intros _. split; intros ? [= <-]. apply version_lt_irrefl.
    + split; [done|]. intros [_ Hmax]. by destruct (Hmax max).
  - split; [|done]. intros _. split; intros ? [=].
Qed.

(** ** Printing and parsing a version *)

Lemma digit_value_pretty_N_char (d : N) :
  (d < 10)%N -> digit_value (pretty_N_char d) = Some d.
Proof.
  intros Hd.
  assert (d = 0 \/ d = 1 \/ d = 2 \/ d = 3 \/ d = 4 \/ d = 5 \/ d = 6 \/ d = 7 \/
          d = 8 \/ d = 9)%N as Hcases by lia.
  repeat (destruct Hcases as [->|Hcases]; [reflexivity|]). by subst.
Qed.

(** The digits [pretty_N_go] puts in front of [s] are read back by
    [parse_digits]. *)
Lemma parse_digits_pretty_N_go (x : N) :
  exists k : N, forall acc s,
    parse_digits acc (pretty_N_go x s) = parse_digits (acc * k + x) s.
Proof.
  induction (N.lt_wf_0 x) as [x _ IH].
  destruct (decide (x = 0)%N) as [->|Hx].
  - exists 1%N. intros acc s. rewrite pretty_N_go_0. f_equal. lia.
  - destruct (IH (x `div` 10)%N) as [k Hk]; [apply N.div_lt; lia|].
    exists (k * 10)%N. intros acc s.
    rewrite pretty_N_go_step by lia. rewrite Hk. simpl.
    rewrite digit_value_pretty_N_char by (apply N.mod_lt; lia).
    f_equal. pose proof (N.div_mod x 10). lia.
Qed.

Lemma parse_digits_pretty_N (x : N) : parse_digits 0 (pretty x) = Some x.
Proof.
  unfold pretty, pretty_N. case_decide as Hx; [by subst|].
  destruct (parse_digits_pretty_N_go x) as [k Hk]. rewrite Hk. simpl. done.
Qed.

Lemma pretty_N_nonempty (x : N) : pretty x <> "".
Proof.
  intros E. pose proof (parse_digits_pretty_N x) as Hp.
  rewrite E in Hp. injection Hp as <-. done.
Qed.

(** A string [parse_digits] accepts has no dot, and does not begin with a
    sign or with the letter v. *)
Lemma parsed_head (acc : N) (c : ascii) (r : string) :
  is_Some (parse_digits acc (String c r)) ->
  is_Some (digit_value c) /\ exists acc', is_Some (parse_digits acc' r).
Proof.
  simpl. destruct (digit_value c) as [d|]; [|by intros [? [=]]]. eauto.
Qed.

Lemma digit_is_no_separator (c : ascii) :
  is_Some (digit_value c) ->
  Ascii.eqb c "." = false /\ Ascii.eqb c "-" = false /\ Ascii.eqb c "+" = false /\
  Ascii.eqb c "v" = false /\ Ascii.eqb c "V" = false.
Proof.
  intros [d Hd]. unfold digit_value in Hd.
  destruct (_ && _)%N eqn:Hrange; [|done].
  apply andb_true_iff in Hrange as [Hlo%N.leb_le Hhi%N.leb_le].
  repeat split; apply Ascii.eqb_neq; intros ->; vm_compute in Hlo, Hhi; done.
Qed.

Lemma Split_digits (acc : N) (s : string) :
  is_Some (parse_digits acc s) -> strings_Split s "." = [s].
Proof.
  revert acc. induction s as [|c s IH]; intros acc Hs; [done|].
  apply parsed_head in Hs as [Hc [acc' Hs]].
  apply digit_is_no_separator in Hc as (Hdot & _).
  simpl. rewrite Hdot. by rewrite (IH acc').
Qed.

Lemma Split_digits_dot (acc : N) (s r : string) :
  is_Some (parse_digits acc s) ->
  strings_Split (s +:+ String "." r) "." = s :: strings_Split r ".".
Proof.
  revert acc. induction s as [|c s IH]; intros acc Hs; [done|].
  apply parsed_head in Hs as [Hc [acc' Hs]].
  apply digit_is_no_separator in Hc as (Hdot & _).
  rewrite app_String. simpl. rewrite Hdot. by rewrite (IH acc').
Qed.

(** What the decimal form of an [int] looks like to [Split], [TrimPrefix]
    and [Atoi]. *)
Lemma pretty_Z_parts (z : Z) :
  is_int z ->
  strconv_Atoi (pretty z) = Some z /\
  (forall r, strings_Split (pretty z +:+ String "." r) "."
             = pretty z :: strings_Split r ".") /\
  strings_Split (pretty z) "." = [pretty z] /\
  (forall r, strings_TrimPrefix (pretty z +:+ r) "v" = pretty z +:+ r) /\
  (forall r, strings_TrimPrefix (pretty z +:+ r) "V" = pretty z +:+ r).
Proof.
  intros [Hlo Hhi].
  assert (forall n : N,
            exists c t, pretty n = String c t /\ is_Some (digit_value c) /\
                        is_Some (parse_digits 0 (pretty n))) as Hdigits.
  { intros n. pose proof (parse_digits_pretty_N n) as Hn.
    destruct (pretty n) as [|c t] eqn:En; [by destruct (pretty_N_nonempty n)|].
    exists c, t. split; [done|]. split; [|by eexists].
    by apply (parsed_head 0 c t). }
  assert (forall (c : ascii) (t r : string),
            Ascii.eqb c "v" = false -> Ascii.eqb c "V" = false ->
            strings_TrimPrefix (String c t +:+ r) "v" = String c t +:+ r /\
            strings_TrimPrefix (String c t +:+ r) "V" = String c t +:+ r) as Htrim.
  { intros c t r Hv HV. unfold strings_TrimPrefix. rewrite app_String.
    change (String.prefix "v" (String c (t +:+ r)))
      with (if ascii_dec "v" c then String.prefix "" (t +:+ r) else false).
    change (String.prefix "V" (String c (t +:+ r)))
      with (if ascii_dec "V" c then String.prefix "" (t +:+ r) else false).
    rewrite Ascii.eqb_sym in Hv. rewrite Ascii.eqb_sym in HV.
    destruct (ascii_dec "v" c) as [<-|?]; [by rewrite Ascii.eqb_refl in Hv|].
    destruct (ascii_dec "V" c) as [<-|?]; [by rewrite Ascii.eqb_refl in HV|].
    done. }
  destruct z as [|p|p].
  - split; [done|]. split; [done|]. split; [done|]. split; intros r; by apply Htrim.
  - change (pretty (Z.pos p)) with (pretty (N.pos p)).
    destruct (Hdigits (N.pos p)) as (c & t & E & Hc & Hparse).
    apply digit_is_no_separator in Hc as (Hdot & Hminus & Hplus & Hv & HV).
    split; [|split; [|split; [|split]]].
    + unfold strconv_Atoi. rewrite E, Hminus, Hplus. rewrite <-E.
      rewrite parse_digits_pretty_N.
      assert ((N.pos p <? 2 ^ 63)%N = true) as -> by (apply N.ltb_lt; lia).
      done.
    + intros r. by apply (Split_digits_dot 0).
    + by apply (Split_digits 0).
    + intros r. rewrite E. by apply Htrim.
    + intros r. rewrite E. by apply Htrim.
  - change (pretty (Z.neg p)) with ("-" +:+ pretty (N.pos p)).
    destruct (Hdigits (N.pos p)) as (c & t & E & Hc & Hparse).
    split; [|split; [|split; [|split]]].
    + unfold strconv_Atoi. rewrite app_String, app_empty. simpl.
      rewrite parse_digits_pretty_N, E.
      assert ((N.pos p <=? 2 ^ 63)%N = true) as -> by (apply N.leb_le; lia).
      done.
    + intros r. rewrite !app_String, !app_empty. simpl.
      by rewrite (Split_digits_dot 0).
    + rewrite app_String, app_empty. simpl. by rewrite (Split_digits 0).
    + intros r. rewrite app_String, app_empty. by apply Htrim.
    + intros r. rewrite app_String, app_empty. by apply Htrim.
Qed.

Lemma app_assoc_string (a b c : string) : (a +:+ b) +:+ c = a +:+ (b +:+ c).
Proof. induction a as [|x a IH]; [done|]. by rewrite !app_String, IH. Qed.

(** Printing a version and parsing it back gives the version again, for
    every version whose fields are [int]s, negative ones included. *)
Theorem ParseVersion_of_String (v : Version.t) :
  is_int (Version.Major v) -> is_int (Version.Minor v) -> is_int (Version.Patch v) ->
  ParseVersion (Version_String v) = (Some v, None).
Proof.
  intros HM Hm Hp. destruct v as [M m p]; simpl in *.
  destruct (pretty_Z_parts M HM) as (HaM & HsM & _ & HvM & HVM).
  destruct (pretty_Z_parts m Hm) as (Ham & Hsm & _ & _ & _).
  destruct (pretty_Z_parts p Hp) as (Hap & _ & Hsp & _ & _).
  unfold ParseVersion, Version_String; simpl.
  rewrite HvM, HVM.
  change (pretty M +:+ "." +:+ pretty m +:+ "." +:+ pretty p)
    with (pretty M +:+ String "." (pretty m +:+ String "." (pretty p))).
  rewrite HsM, Hsm, Hsp. simpl.
  by rewrite HaM, Ham, Hap.
Qed.

(** ** Checking a version requirement *)

Lemma ParseVersion_shape (v : string) :
  (exists version, ParseVersion v = (Some version, None)) \/
  (exists err, ParseVersion v = (None, Some err)).
Proof.
  unfold ParseVersion.
  set (parts := strings_Split _ _).
  destruct (length parts =? 0)%nat; [right; eauto|].
  destruct (1 <=? length parts)%nat; [destruct (strconv_Atoi (nth 0 parts ""))|];
    [|right; eauto|];
    (destruct (2 <=? length parts)%nat; [destruct (strconv_Atoi (nth 1 parts ""))|];
     [|right; eauto|];
     (destruct (3 <=? length parts)%nat; [destruct (strconv_Atoi (nth 2 parts ""))|];
      [|right; eauto|]; left; eauto)).
Qed.

Lemma NewVersionRequirement_shape (minVersion maxVersion : string) :
  (exists req, NewVersionRequirement minVersion maxVersion = (Some req, None) /\
               (minVersion = "" -> VersionRequirement.MinVersion req = None) /\
               (maxVersion = "" -> VersionRequirement.MaxVersion req = None)) \/
  (exists err, NewVersionRequirement minVersion maxVersion = (None, Some err)).
Proof.
  unfold NewVersionRequirement.
  destruct (String.eqb_spec minVersion "") as [->|Hmin],
           (String.eqb_spec maxVersion "") as [->|Hmax]; simpl.
  - left. eexists. by repeat split.
  - destruct (ParseVersion_shape maxVersion) as [[v ->]|[e ->]]; [left|right; eauto].
    eexists. by repeat split.
  - destruct (ParseVersion_shape minVersion) as [[v ->]|[e ->]]; [left|right; eauto].
    eexists. by repeat split.
  - destruct (ParseVersion_shape minVersion) as [[v ->]|[e ->]]; [|right; eauto].
    destruct (ParseVersion_shape maxVersion) as [[w ->]|[e ->]]; [left|right; eauto].
    eexists. by repeat split.
Qed.

(** [AssertVersionRequirement] returns nil exactly when the deployment is
    of the required kind (Privilege Cloud when that is required, not
    Privilege Cloud when self-hosted is required), the current version
    parses, the bounds parse, and the current version satisfies them. So
    requiring both Privilege Cloud and self-hosted always fails, and so does
    a current version that does not parse, such as the empty string, even
    when no bound is given. *)
Theorem AssertVersionRequirement_nil_iff
    (currentVersion minVersion maxVersion : string)
    (privilegeCloudRequired selfHostedRequired isPrivilegeCloud : bool) :
  AssertVersionRequirement currentVersion minVersion maxVersion
    privilegeCloudRequired selfHostedRequired isPrivilegeCloud = None <->
  (privilegeCloudRequired = true -> isPrivilegeCloud = true) /\
  (selfHostedRequired = true -> isPrivilegeCloud = false) /\
  exists current req,
    ParseVersion currentVersion = (Some current, None) /\
    NewVersionRequirement minVersion maxVersion = (Some req, None) /\
    VersionRequirement_IsSatisfied req current = true.
Proof.
  unfold AssertVersionRequirement.
  destruct privilegeCloudRequired, selfHostedRequired, isPrivilegeCloud; simpl;
    try (split; [done|intros (Hpc & Hsh & _);
                      first [by pose proof (Hpc eq_refl)|by pose proof (Hsh eq_refl)]]).
  all: destruct (ParseVersion_shape currentVersion) as [[current ->]|[e ->]];
    [|split; [done|by intros (_ & _ & ? & ? & [=] & _)]].
  all: destruct (NewVersionRequirement_shape minVersion maxVersion)
         as [(req & -> & Hmin & Hmax)|[e ->]];
    [|split; [done|by intros (_ & _ & ? & ? & _ & [=] & _)]].
  all: destruct (VersionRequirement_IsSatisfied req current) eqn:Hsat; simpl;
    [split; [intros _; repeat split; try done; by exists current, req
            |done]|].
  all: destruct (String.eqb_spec minVersion "") as [Emin|?]; simpl;
    [|destruct (String.eqb maxVersion ""); simpl;
      (split; [done|by intros (_ & _ & ? & ? & [= <-] & [= <-] & ?); congruence])].
  all: destruct (String.eqb_spec maxVersion "") as [Emax|?]; simpl;
    [|split; [done|by intros (_ & _ & ? & ? & [= <-] & [= <-] & ?); congruence]].
  all: exfalso; unfold VersionRequirement_IsSatisfied in Hsat;
    by rewrite (Hmin Emin), (Hmax Emax) in Hsat.
Qed.

(** ** Escaping *)

Lemma ReplaceAll_app (a b : string) (old : ascii) (new : string) :
  strings_ReplaceAll (a +:+ b) old new
  = strings_ReplaceAll a old new +:+ strings_ReplaceAll b old new.
Proof.
  induction a as [|c a IH]; [done|].
  rewrite app_String. simpl. destruct (Ascii.eqb c old).
  - by rewrite IH, app_assoc_string.
  - by rewrite IH, app_String.
Qed.

(** [EscapeString] byte by byte: a backslash becomes two, a double quote
    becomes a backslash and the quote, any other byte stays. *)
Lemma EscapeString_cons (c : ascii) (r : string) :
  EscapeString (String c r) =
    (if Ascii.eqb c backslash then String backslash (String backslash "")
     else if Ascii.eqb c double_quote then String backslash (String double_quote "")
     else String c "") +:+ EscapeString r.
Proof.
  unfold EscapeString. simpl.
  destruct (Ascii.eqb_spec c backslash) as [->|Hb].
  - by rewrite ReplaceAll_app.
  - simpl. by destruct (Ascii.eqb c double_quote).
Qed.

(** Escaping loses nothing: reading the escapes of [EscapeString s] back
    gives [s], so two different strings are never escaped to the same
    string. *)
Theorem EscapeString_can_be_read_back (s t : string) :
  unescape (EscapeString s) = s /\
  (EscapeString s = EscapeString t -> s = t).
Proof.
  assert (forall s, unescape (EscapeString s) = s) as Hback.
  { clear. induction s as [|c s IH]; [done|].
    rewrite EscapeString_cons.
    destruct (Ascii.eqb_spec c backslash) as [->|Hb].
    - rewrite !app_String, app_empty. simpl. by rewrite IH.
    - destruct (Ascii.eqb_spec c double_quote) as [->|Hq].
      + rewrite !app_String, app_empty. simpl. by rewrite IH.
      + rewrite app_String, app_empty. simpl.
        apply Ascii.eqb_neq in Hb. by rewrite Hb, IH. }
  split; [apply Hback|]. intros E.
  rewrite <-(Hback s), <-(Hback t). by rewrite E.
Qed.

(** * Runs of the further properties on the test doubles *)

Lemma SetAuthToken_then_GetAuthToken_witness :
  let cs : gmap loc (Client.t Mock.handler) :=
    {[1%positive := Mock.client "old" (Mock.server 200 "{}")]} in
  exists cs',
    @Client_SetAuthToken mock (Some 1%positive) "" cs = Some (tt, cs') /\
    @Client_GetAuthToken mock (Some 1%positive) cs' = Some ("", cs').
Proof.
  intros cs.
  destruct (@SetAuthToken_then_GetAuthToken mock cs 1%positive
              (Mock.client "old" (Mock.server 200 "{}")) "")
    as (cs' & Hset & Hget & _); [reflexivity|].
  by exists cs'.
Defined.

Lemma Do_success_returns_response_and_nil_error_witness :
  let cs : gmap loc (Client.t Mock.handler) :=
    {[1%positive := Mock.client "tok123" (Mock.server 200 "{}")]} in
  @Client_Do mock (Some 1%positive) tt (Request.mk "GET" "/Accounts" None ∅ []) cs
    = Some ((Some (Response.mk 200 (bytes "{}") ∅), None), cs).
Proof.
  intros cs.
  eapply (@Do_success_returns_response_and_nil_error mock cs 1%positive
            (Mock.client "tok123" (Mock.server 200 "{}")) _ tt
            (Request.mk "GET" "/Accounts" None ∅ []) _
            (http_Response.mk 200 ∅ (inl (bytes "{}"))) (bytes "{}")).
  - reflexivity.
  - reflexivity.
  - reflexivity.
  - reflexivity.
  - reflexivity.
  - simpl. lia.
Defined.

Lemma Do_result_shape_witness :
  let cs : gmap loc (Client.t Mock.handler) :=
    {[1%positive := Mock.client "tok123" (Mock.server 500 "down")]} in
  exists resp err,
    @Client_Do mock (Some 1%positive) tt (Request.mk "GET" "/Accounts" None ∅ []) cs
      = Some ((resp, err), cs) /\
    (resp = None -> exists msg inner, err = Some (wrapError msg inner)).
Proof.
  intros cs.
  destruct (@Do_result_shape mock cs 1%positive
              (Mock.client "tok123" (Mock.server 500 "down")) tt
              (Request.mk "GET" "/Accounts" None ∅ []))
    as (resp & err & Hdo & Hnil & _); [reflexivity|eexists; reflexivity|].
  by exists resp, err.
Defined.

Lemma Do_marshal_failure_is_returned_before_the_transport_witness :
  let cs : gmap loc (Client.t Mock.handler) :=
    {[1%positive := Mock.client "tok123" (Mock.server 200 "{}")]} in
  @Client_Do mock (Some 1%positive) tt
     (Request.mk "POST" "/Accounts" (Some Mock.Unserialisable) ∅ []) cs
    = Some ((None, Some (wrapError "failed to marshal request body: "
                           (errorString "json: unsupported type"))), cs).
Proof.
  intros cs.
  apply (@Do_marshal_failure_is_returned_before_the_transport mock cs 1%positive
           (Mock.client "tok123" (Mock.server 200 "{}")) tt
           (Request.mk "POST" "/Accounts" (Some Mock.Unserialisable) ∅ [])
           Mock.Unserialisable).
  - reflexivity.
  - reflexivity.
  - reflexivity.
Defined.

Lemma Do_last_custom_header_wins_witness :
  exists httpReq,
    @Client_Do_request mock (Mock.client "tok123" (Mock.server 200 "{}")) tt
      (Request.mk "GET" "/Accounts" None ∅
         [("content-type", "text/plain"); ("X-Custom", "v")]) = inl httpReq /\
    @http_Header_Values mock (http_Request.Header httpReq) "content-type"
      = Some ["text/plain"].
Proof.
  eexists. split; [reflexivity|].
  eapply (@Do_last_custom_header_wins mock
            (Mock.client "tok123" (Mock.server 200 "{}")) tt
            (Request.mk "GET" "/Accounts" None ∅
               [("content-type", "text/plain"); ("X-Custom", "v")])
            _ [] [("X-Custom", "v")] "content-type" "text/plain").
  - reflexivity.
  - reflexivity.
  - repeat constructor. vm_compute. discriminate.
Defined.

Lemma parseAPIError_keeps_decoded_error_witness :
  let body := bytes ("{" +:+ MockAuth.quoted "ErrorCode" +:+ ":"
                     +:+ MockAuth.quoted "PASWS001" +:+ ","
                     +:+ MockAuth.quoted "ErrorMessage" +:+ ":"
                     +:+ MockAuth.quoted "Account not found" +:+ "}") in
  @parseAPIError mock (Response.mk 404 body ∅)
    = apiError (APIError.mk 404 "PASWS001" "Account not found" "").
Proof.
  intros body.
  apply (@parseAPIError_keeps_decoded_error mock (Response.mk 404 body ∅)).
  - vm_compute. discriminate.
  - vm_compute. reflexivity.
  - simpl. discriminate.
Defined.

Lemma Do_error_is_classified_by_status_witness :
  let cs : gmap loc (Client.t Mock.handler) :=
    {[1%positive := Mock.client "tok123" (Mock.server 401 "")]} in
  exists resp err e,
    @Client_Do mock (Some 1%positive) tt (Request.mk "POST" "/Auth/Logoff" None ∅ []) cs
      = Some ((resp, err), cs) /\
    AsAPIError err = (Some e, true) /\
    APIError_IsUnauthorized e = true /\
    APIError_IsNotFound e = false.
Proof.
  intros cs.
  destruct (@Do_error_is_classified_by_status mock cs 1%positive
              (Mock.client "tok123" (Mock.server 401 "")) _ tt
              (Request.mk "POST" "/Auth/Logoff" None ∅ []) _
              (http_Response.mk 401 ∅ (inl (bytes ""))) (bytes "")
              eq_refl eq_refl eq_refl eq_refl eq_refl)
    as (resp & err & e & Hdo & _ & Has & _ & [_ H401] & _ & [H404 _] & _);
    [simpl; lia|].
  exists resp, err, e. split; [exact Hdo|]. split; [exact Has|].
  split; [exact (H401 eq_refl)|].
  destruct (APIError_IsNotFound e); [|reflexivity].
  discriminate (H404 eq_refl).
Defined.

Lemma NewSession_starts_unauthenticated_witness :
  exists s c h' v,
    @NewSession mock "https://host" 7 Mock.empty_heap = Some ((Some s, None), h') /\
    Heap.sessions h' !! s = Some v /\
    @Session_IsValid mock (Some s) h' = Some (false, h') /\
    Session.StartTime v = 7 /\
    on_clients (@Client_GetAuthToken mock (Some c)) h' = Some ("", h').
Proof.
  destruct (@NewSession_starts_unauthenticated mock Mock.empty_heap "https://host" 7)
    as (s & c & h' & v & Hnew & _ & _ & Hs & _ & Hvalid & _ & _ & _ & _ & Ht & Hget & _);
    [discriminate|].
  by exists s, c, h', v.
Defined.

Lemma bookkeeping_calls_keep_authentication_witness :
  let h := Mock.heap (Mock.client "tok123" (Mock.server 200 "{}"))
                     (Mock.session "alice" "tok123" true "") in
  exists h' v',
    @call mock (Some 1%positive) (UpdateLastCommand "Get-PASAccount" 9) h = Some (tt, h') /\
    Heap.sessions h' !! 1%positive = Some v' /\
    Session.SessionToken v' = "tok123" /\
    @Session_IsValid mock (Some 1%positive) h' = Some (true, h').
Proof.
  intros h.
  destruct (@bookkeeping_calls_keep_authentication mock h 1%positive 1%positive
              (UpdateLastCommand "Get-PASAccount" 9))
    as (h' & v & v' & b & Hcall & Hs & Hs' & _ & Htok & _ & _ & _ & _ & Hb & Hb');
    [apply mock_heap_owns|reflexivity|].
  exists h', v'. split; [exact Hcall|]. split; [exact Hs'|].
  injection Hs as <-. split; [exact Htok|].
  injection Hb as <-. exact Hb'.
Defined.

Lemma authenticated_session_token_is_client_token_witness :
  exists s h1 h2 v,
    @NewSession mock "https://host" 0 Mock.empty_heap = Some ((Some s, None), h1) /\
    @calls mock (Some s)
       [SetAuthenticated "alice" "tok123" "CyberArk"; SetVersion "14.0"] h1
      = Some (tt, h2) /\
    Heap.sessions h2 !! s = Some v /\
    (Session.IsAuthenticated v = true ->
     on_clients (@Client_GetAuthToken mock (Session.Client v)) h2
       = Some (Session.SessionToken v, h2)).
Proof.
  apply (@authenticated_session_token_is_client_token mock Mock.empty_heap
           "https://host" 0 [SetAuthenticated "alice" "tok123" "CyberArk";
                             SetVersion "14.0"]).
  discriminate.
Defined.


Lemma Close_twice_is_Close_witness :
  let h := Mock.heap (Mock.client "tok123" (Mock.server 200 "{}"))
                     (Mock.session "alice" "tok123" true "") in
  exists h',
    @Session_Close mock (Some 1%positive) h = Some (tt, h') /\
    @Session_Close mock (Some 1%positive) h' = Some (tt, h').
Proof.
  intros h.
  apply (@Close_twice_is_Close mock h 1%positive
           (Mock.session "alice" "tok123" true "")).
  reflexivity.
Defined.

Lemma SetAuthenticated_on_clone_changes_the_shared_client_witness :
  let h := Mock.heap (Mock.client "tok123" (Mock.server 200 "{}"))
                     (Mock.session "alice" "tok123" true "") in
  exists p h1 h2 v,
    @Session_Clone mock (Some 1%positive) h = Some (Some p, h1) /\
    @Session_SetAuthenticated mock (Some p) "bob" "tok456" "LDAP" h1 = Some (tt, h2) /\
    Heap.sessions h2 !! 1%positive = Some v /\
    Session.SessionToken v = "tok123" /\
    on_clients (@Client_GetAuthToken mock (Session.Client v)) h2 = Some ("tok456", h2).
Proof.
  intros h.
  destruct (@SetAuthenticated_on_clone_changes_the_shared_client mock h
              1%positive 1%positive "bob" "tok456" "LDAP")
    as (p & h1 & h2 & v & Hclone & Hset & _ & Hs & Hs2 & Hget);
    [apply mock_heap_owns|].
  exists p, h1, h2, v. injection Hs as <-.
  split; [exact Hclone|]. split; [exact Hset|]. split; [exact Hs2|].
  split; [reflexivity|exact Hget].
Defined.

Lemma trimQuotes_strips_exactly_one_pair_witness :
  trimQuotes (MockAuth.quoted "tok123") = "tok123" /\
  trimQuotes (String double_quote "") = String double_quote "" /\
  trimQuotes "tok123" = "tok123".
Proof.
  destruct trimQuotes_strips_exactly_one_pair as [Hstrip Hkeep].
  split; [exact (Hstrip "tok123")|].
  split; apply Hkeep; intros m E.
  - injection E as E. destruct m; discriminate E.
  - unfold double_quote in E. discriminate E.
Defined.

Lemma GetServerInfo_returns_info_or_wrapped_error_witness :
  let h := Mock.heap (Mock.client "tok123" (Mock.server 500 "down"))
                     (Mock.session "alice" "tok123" true "") in
  exists info err,
    @GetServerInfo (MockAuth.runtime MockAuth.vault) (MockAuth.auth MockAuth.vault)
       tt (Some 1%positive) h = Some ((info, err), h) /\
    (is_Some info <-> err = None) /\
    IsAPIError err = false.
Proof.
  intros h.
  apply (@GetServerInfo_returns_info_or_wrapped_error
           (MockAuth.runtime MockAuth.vault) (MockAuth.auth MockAuth.vault)
           h tt 1%positive 1%positive (Mock.session "alice" "tok123" true "")
           (Mock.client "tok123" (Mock.server 500 "down"))).
  - reflexivity.
  - reflexivity.
  - reflexivity.
  - eexists. reflexivity.
Defined.

Lemma authentication_NewSession_rejects_missing_options_witness :
  @authentication_NewSession (MockAuth.runtime MockAuth.vault)
     (MockAuth.auth MockAuth.vault) tt
     (MockAuth.options "https://host" "" "secret" true) 0 Mock.empty_heap
    = Some ((None, Some (errorString "username is required")), Mock.empty_heap).
Proof.
  apply (@authentication_NewSession_rejects_missing_options
           (MockAuth.runtime MockAuth.vault) (MockAuth.auth MockAuth.vault)
           Mock.empty_heap tt (MockAuth.options "https://host" "" "secret" true) 0).
  - simpl. discriminate.
  - reflexivity.
Defined.

Lemma authentication_NewSession_token_from_login_response_witness :
  exists r h',
    @authentication_NewSession (MockAuth.runtime MockAuth.vault)
       (MockAuth.auth MockAuth.vault) tt
       (MockAuth.options "https://host/" "alice" "secret" false) 0 Mock.empty_heap
      = Some (r, h') /\
    exists s v,
      r = (Some s, None) /\
      Heap.sessions h' !! s = Some v /\
      Session.SessionToken v = "tok123" /\
      Session.User v = "alice" /\
      Session.AuthMethod v = "CyberArk".
Proof.
  edestruct (@authentication_NewSession_token_from_login_response
               (MockAuth.runtime MockAuth.vault) (MockAuth.auth MockAuth.vault)
               Mock.empty_heap tt
               (MockAuth.options "https://host/" "alice" "secret" false) 0)
    as (r & h' & Hrun & _ & Hsession).
  - simpl. discriminate.
  - simpl. discriminate.
  - simpl. discriminate.
  - reflexivity.
  - reflexivity.
  - reflexivity.
  - simpl. lia.
  - reflexivity.
  - exists r, h'. split; [exact Hrun|]. apply Hsession. discriminate.
Defined.

Lemma CloseSession_without_valid_session_does_nothing_witness :
  let h := Mock.heap (Mock.client "" (Mock.server 200 "{}"))
                     (Mock.session "" "" false "") in
  @authentication_CloseSession (MockAuth.runtime MockAuth.vault) tt (Some 1%positive) h = Some (None, h).
Proof.
  intros h.
  apply (proj2 (@CloseSession_without_valid_session_does_nothing
                  (MockAuth.runtime MockAuth.vault)
                  h tt) 1%positive (Mock.session "" "" false "")).
  - reflexivity.
  - left. reflexivity.
Defined.

Lemma CloseSession_closes_or_changes_nothing_witness :
  let h := Mock.heap (MockAuth.default_client "tok123")
                     (Mock.session "alice" "tok123" true "") in
  exists r h',
    @authentication_CloseSession (MockAuth.runtime MockAuth.vault) tt (Some 1%positive) h = Some (r, h') /\
    ((r = None /\
      @Session_IsValid (MockAuth.runtime MockAuth.vault) (Some 1%positive) h'
        = Some (false, h') /\
      Heap.clients h' = Heap.clients h /\
      exists v', Heap.sessions h' !! 1%positive = Some v' /\
                 Session.SessionToken v' = "") \/
     (exists err, r = Some (wrapError "failed to close session: " err) /\ h' = h)).
Proof.
  intros h.
  apply (@CloseSession_closes_or_changes_nothing
           (MockAuth.runtime MockAuth.vault)
           h tt 1%positive 1%positive (Mock.session "alice" "tok123" true "")
           (MockAuth.default_client "tok123")).
  - reflexivity.
  - reflexivity.
  - reflexivity.
  - eexists. reflexivity.
  - reflexivity.
  - simpl. discriminate.
Defined.

Lemma CloseSession_outcome_by_status_witness :
  let h := Mock.heap (MockAuth.default_client "tok123")
                     (Mock.session "alice" "tok123" true "") in
  exists h',
    @authentication_CloseSession (MockAuth.runtime MockAuth.vault) tt (Some 1%positive) h = Some (None, h') /\
    @Session_IsValid (MockAuth.runtime MockAuth.vault) (Some 1%positive) h'
      = Some (false, h').
Proof.
  intros h.
  eapply (proj1 (@CloseSession_outcome_by_status
                   (MockAuth.runtime MockAuth.vault)
                   h tt 1%positive 1%positive (Mock.session "alice" "tok123" true "")
                   (MockAuth.default_client "tok123") _ _
                   (http_Response.mk 401 ∅ (inl (bytes ""))) (bytes "")
                   eq_refl eq_refl eq_refl eq_refl _ eq_refl eq_refl eq_refl eq_refl)).
  right. reflexivity.
  Unshelve. simpl. discriminate.
Defined.

Lemma accounts_Delete_errors_witness :
  let h := Mock.heap (MockAuth.default_client "tok123")
                     (Mock.session "alice" "tok123" true "") in
  exists err,
    @accounts_Delete (MockAuth.runtime MockAuth.vault) tt (Some 1%positive) "42" h
      = Some (err, h) /\
    IsAPIError err = false.
Proof.
  intros h.
  destruct (@accounts_Delete_errors (MockAuth.runtime MockAuth.vault)
              h tt 1%positive 1%positive (Mock.session "alice" "tok123" true "")
              (MockAuth.default_client "tok123") "42")
    as (err & Hrun & Hapi & _);
    [reflexivity|reflexivity|reflexivity|eexists; reflexivity|].
  by exists err.
Defined.

Lemma Version_GreaterThanOrEqual_is_a_total_order_witness :
  Version_GreaterThanOrEqual (Version.mk 14 2 0) (Version.mk 12 1 0) = true /\
  Version_LessThan (Version.mk 14 2 0) (Version.mk 12 1 0) = false.
Proof.
  destruct (Version_GreaterThanOrEqual_is_a_total_order
              (Version.mk 14 2 0) (Version.mk 13 0 0) (Version.mk 12 1 0))
    as (_ & Htrans & _ & _ & _).
  destruct (Version_GreaterThanOrEqual_is_a_total_order
              (Version.mk 14 2 0) (Version.mk 12 1 0) (Version.mk 12 1 0))
    as (_ & _ & _ & _ & Hlt).
  rewrite Hlt, Htrans; [split; reflexivity|reflexivity|reflexivity].
Defined.

Lemma IsSatisfied_iff_within_bounds_witness :
  VersionRequirement_IsSatisfied
    (VersionRequirement.mk (Some (Version.mk 11 5 0)) None) (Version.mk 11 5 0) = true.
Proof.
  apply IsSatisfied_iff_within_bounds. split.
  - intros min [= <-]. unfold version_lt. simpl. lia.
  - intros max [=].
Defined.

Lemma ParseVersion_of_String_witness :
  ParseVersion (Version_String (Version.mk 14 0 5)) = (Some (Version.mk 14 0 5), None).
Proof.
  apply ParseVersion_of_String; unfold is_int; simpl; lia.
Defined.

Lemma AssertVersionRequirement_nil_iff_witness :
  AssertVersionRequirement "12.1" "11.0" "" false false true = None /\
  AssertVersionRequirement "" "" "" false false false <> None.
Proof.
  split.
  - apply AssertVersionRequirement_nil_iff.
    split; [done|]. split; [done|].
    eexists _, _. split; [reflexivity|]. split; reflexivity.
  - intros E. apply AssertVersionRequirement_nil_iff in E
      as (_ & _ & current & req & Hparse & _).
    discriminate Hparse.
Defined.

Lemma EscapeString_can_be_read_back_witness :
  unescape (EscapeString (String backslash (String double_quote "a")))
    = String backslash (String double_quote "a").
Proof.
  exact (proj1 (EscapeString_can_be_read_back
                  (String backslash (String double_quote "a")) "")).
Defined.
